(** * video-to-article: the media-to-prompt pipeline of [app.py]

    A shallow embedding of the functions of [app.py] that carry the design
    content of the tool -- [extract_frames], [transcribe_audio_gemini],
    [generate_preview_html], [display_article] and the conversion handler --
    together with the properties the specification states about them.

    Conventions of the embedding:
    - a Python [int] is a [Z]; an index produced by [enumerate] is a [nat];
    - a Python [str] is the [string] of its UTF-8 bytes; every delimiter the
      program looks for is an ASCII character, and white space is the set
      of characters for which [str.isspace] holds, each as its encoding;
    - a finite Python [float] is a rational ([Q]); [inf] and [nan] are kept
      apart because [int()] raises on them;
    - paths are POSIX paths, joined and split as [posixpath] does; the
      file system is a finite map from the list of names that leads from
      the root to a node, and a path is resolved name by name as the
      kernel does it (the empty name, [.] and [..], the length limit of a
      name); there are no symbolic links and no permissions;
    - code that raises returns [inl e]; external programs and services
      ([ffprobe], [ffmpeg], the [json] and [markdown] libraries, the Gemini
      client) are fields of an environment record. *)

From Stdlib Require Import ZArith QArith Lia List String Ascii.
From Stdlib.Strings Require Import Byte.
From Stdlib Require Import Decimal DecimalNat DecimalZ DecimalString.
From stdpp Require Import base option list strings gmap.

Local Open Scope string_scope.
Local Open Scope list_scope.
Local Open Scope Z_scope.

#[local] Set Warnings "-register-all".

Abbreviation byte := Init.Byte.byte.

(** ** Python builtins used by [app.py] *)

Module Py.

(** Exceptions that the modelled code can raise. *)
Inductive exn : Type :=
| ValueError
| TypeError
| KeyError
| OverflowError
| RecursionError
| JSONDecodeError
| CalledProcessError
| FileNotFoundError
| FileExistsError
| IsADirectoryError
| NotADirectoryError
| OSError
| ServiceError.

(** The exceptions an [except OSError] clause catches. *)
Definition is_os_error (e : exn) : bool :=
  match e with
  | FileNotFoundError | FileExistsError | IsADirectoryError
  | NotADirectoryError | OSError => true
  | _ => false
  end.

Definition result (A : Type) : Type := exn + A.

(** [float]: finite values are exact rationals. *)
Inductive float : Type :=
| Finite (q : Q)
| Infinity (negative : bool)
| NaN.

(** [int(x)] for a float [x]: truncation towards zero. *)
Definition int_of_float (x : float) : result Z :=
  match x with
  | Finite q => inr (Z.quot (Qnum q) (Z.pos (Qden q)))
  | Infinity _ => inl OverflowError
  | NaN => inl ValueError
  end.

(** [math.floor(x)] for a finite float. *)
Definition floor (q : Q) : Z := Qnum q / Z.pos (Qden q).

(** Number of elements of [range(start, stop, step)], as CPython computes
    it; [step] is not zero. *)
Definition range_len (start stop step : Z) : nat :=
  if (0 <? step) && (start <? stop) then
    Z.to_nat (1 + (stop - 1 - start) / step)
  else if (step <? 0) && (stop <? start) then
    Z.to_nat (1 + (start - 1 - stop) / (- step))
  else 0%nat.

(** [list(range(start, stop, step))]; a zero step raises [ValueError]. *)
Definition range (start stop step : Z) : result (list Z) :=
  if step =? 0 then inl ValueError
  else inr (map (fun k : nat => start + Z.of_nat k * step)
                (seq 0 (range_len start stop step))).

(** [x in l] for a list of ints. *)
Definition contains (x : Z) (l : list Z) : bool := existsb (Z.eqb x) l.

(** [str(z)] for an int. *)
Definition str (z : Z) : string := NilZero.string_of_int (Z.to_int z).

(** The format spec [04d] applied to an index: decimal, padded with zeros
    on the left to four characters. *)
Fixpoint zeros (n : nat) : string :=
  match n with
  | O => ""
  | S n => String "0" (zeros n)
  end.

Definition fmt_04d (i : nat) : string :=
  let s := NilZero.string_of_uint (Nat.to_uint i) in
  zeros (4 - String.length s) +:+ s.

(** [s.startswith(p)] *)
Definition startswith (s p : string) : bool := String.prefix p s.

(** [s.endswith("/")] *)
Fixpoint ends_with_sep (s : string) : bool :=
  match s with
  | "" => false
  | String c "" => Ascii.eqb c "/"
  | String _ s' => ends_with_sep s'
  end.

(** [os.path.join(a, b)] of [posixpath], for two components. *)
Definition path_join (a b : string) : string :=
  if startswith b "/" then b
  else if (String.eqb a "") || ends_with_sep a then a +:+ b
  else a +:+ "/" +:+ b.

(** [os.path.basename(p)] of [posixpath]: what follows the last slash. *)
Fixpoint basename (p : string) : string :=
  match p with
  | "" => ""
  | String c p' => if Ascii.eqb c "/" then basename p'
                   else if existsb (Ascii.eqb "/") (list_ascii_of_string p')
                        then basename p' else p
  end.

(** [s.rstrip("/")] *)
Fixpoint rstrip_sep (s : string) : string :=
  match s with
  | "" => ""
  | String c s' =>
      match rstrip_sep s' with
      | "" => if Ascii.eqb c "/" then "" else String c ""
      | r => String c r
      end
  end.

(** [p[:i], p[i:]] for [i = p.rfind("/") + 1]. *)
Fixpoint cut_last_sep (p : string) : string * string :=
  match p with
  | "" => ("", "")
  | String c p' =>
      let '(head, tail) := cut_last_sep p' in
      if negb (String.eqb head "") then (String c head, tail)
      else if Ascii.eqb c "/" then ("/", tail)
      else ("", String c tail)
  end.

(** [os.path.split(p)] of [posixpath]: the slashes that end the head are
    dropped unless the head consists of slashes only. *)
Definition split (p : string) : string * string :=
  let '(head, tail) := cut_last_sep p in
  (if String.eqb (rstrip_sep head) "" then head else rstrip_sep head, tail).

End Py.

Import Py.

(** ** The file system *)

(** A place of the file system holds a regular file or a directory. *)
Inductive node : Type :=
| File (data : list byte)
| Dir.

(** The nodes of the file system, each under the names that lead to it
    from the root; the root itself is the empty list of names. *)
Abbreviation files := (gmap (list string) node).

Module Disk.

(** The names between the slashes of a path. *)
Fixpoint components (p : string) : list string :=
  match p with
  | "" => [""]
  | String c p' =>
      if Ascii.eqb c "/" then "" :: components p'
      else match components p' with
           | name :: names => String c name :: names
           | [] => [String c ""]
           end
  end.

(** The same without the empty names at the end, which trailing slashes
    leave. *)
Fixpoint trim (names : list string) : list string :=
  match names with
  | [] => []
  | name :: names' =>
      match trim names' with
      | [] => if String.eqb name "" then [] else [name]
      | r => name :: r
      end
  end.

(** The node at a place; the root is a directory. *)
Definition node_of (f : files) (place : list string) : option node :=
  match place with
  | [] => Some Dir
  | _ => f !! place
  end.

(** The longest name a directory entry can have, in bytes ([NAME_MAX]). *)
Definition name_max : nat := 255.

(** One step of path resolution: from the place [cur], which has to be a
    directory, on to the name [c]. *)
Definition step (f : files) (cur : list string) (c : string)
  : result (list string) :=
  match node_of f cur with
  | None => inl FileNotFoundError
  | Some (File _) => inl NotADirectoryError
  | Some Dir =>
      if String.eqb c "" || String.eqb c "." then inr cur
      else if String.eqb c ".." then inr (removelast cur)
      else if (name_max <? String.length c)%nat then inl OSError
      else inr (cur ++ [c])
  end.

Fixpoint walk (f : files) (cur : list string) (names : list string)
  : result (list string) :=
  match names with
  | [] => inr cur
  | c :: names' =>
      match step f cur c with
      | inl e => inl e
      | inr cur' => walk f cur' names'
      end
  end.

Definition has_nul (p : string) : bool :=
  existsb (Ascii.eqb Ascii.zero) (list_ascii_of_string p).

(** The place the names of the path [p] lead to, from the root for an
    absolute path and from the working directory otherwise.  A path with a
    null character is refused before it reaches the kernel, and the empty
    path names nothing. *)
Definition locate (f : files) (cwd : list string) (p : string)
  (names : list string) : result (list string) :=
  if has_nul p then inl ValueError
  else if String.eqb p "" then inl FileNotFoundError
  else walk f (if startswith p "/" then [] else cwd) names.

(** [os.stat(p)], as far as the kind of the node and its content go. *)
Definition stat (f : files) (cwd : list string) (p : string) : result node :=
  match locate f cwd p (components p) with
  | inl e => inl e
  | inr place =>
      match node_of f place with
      | Some n => inr n
      | None => inl FileNotFoundError
      end
  end.

(** [os.path.exists(p)]: [os.stat] raised nothing. *)
Definition exists_ (f : files) (cwd : list string) (p : string) : bool :=
  match stat f cwd p with inr _ => true | inl _ => false end.

(** [os.path.isdir(p)] *)
Definition isdir (f : files) (cwd : list string) (p : string) : bool :=
  match stat f cwd p with inr Dir => true | _ => false end.

(** [open(p, "rb").read()] *)
Definition read (f : files) (cwd : list string) (p : string)
  : result (list byte) :=
  match stat f cwd p with
  | inl e => inl e
  | inr Dir => inl IsADirectoryError
  | inr (File data) => inr data
  end.

(** [os.mkdir(p)]: trailing slashes do not count, and the place must be
    free. *)
Definition mkdir (f : files) (cwd : list string) (p : string) : result files :=
  match locate f cwd p (trim (components p)) with
  | inl e => inl e
  | inr place =>
      match node_of f place with
      | Some _ => inl FileExistsError
      | None => inr (<[place := Dir]> f)
      end
  end.

(** [with open(p, "wb") as f: f.write(data)]: the file is created or
    replaced; a path that ends with a slash or leads to a directory is
    refused. *)
Definition write (f : files) (cwd : list string) (p : string)
  (data : list byte) : result files :=
  match locate f cwd p (trim (components p)) with
  | inl e => inl e
  | inr place =>
      if ends_with_sep p then inl IsADirectoryError
      else match node_of f place with
           | Some Dir => inl IsADirectoryError
           | _ => inr (<[place := File data]> f)
           end
  end.

(** [os.makedirs(name, exist_ok=True)], as [os.py] has it: the head of the
    path is made first when it is missing, then the directory itself; an
    [OSError] of [mkdir] is dropped when the path is a directory after
    all.  The recursion is on the head, which is shorter than the path, so
    [fuel] at least the length of [name] is never used up. *)
Fixpoint makedirs (fuel : nat) (f : files) (cwd : list string)
  (name : string) : files * result unit :=
  let '(head0, tail0) := split name in
  let '(head, tail) :=
    if String.eqb tail0 "" then split head0 else (head0, tail0) in
  let make (f1 : files) : files * result unit :=
    match mkdir f1 cwd name with
    | inr f2 => (f2, inr tt)
    | inl e =>
        if is_os_error e && isdir f1 cwd name then (f1, inr tt)
        else (f1, inl e)
    end in
  let after_head (f1 : files) : files * result unit :=
    if String.eqb tail "." then (f1, inr tt) else make f1 in
  match fuel with
  | S fuel' =>
      if negb (String.eqb head "") && negb (String.eqb tail "")
         && negb (exists_ f cwd head)
      then
        match makedirs fuel' f cwd head with
        | (f1, inr _) | (f1, inl FileExistsError) => after_head f1
        | (f1, inl e) => (f1, inl e)
        end
      else make f
  | O => make f
  end.

(** [q] is the place [place] or lies below it. *)
Fixpoint inside (place q : list string) : bool :=
  match place, q with
  | [], _ => true
  | a :: place', b :: q' => String.eqb a b && inside place' q'
  | _ :: _, [] => false
  end.

(** The path ends with a name, not with [.] or [..], and is not the
    root: [os.rmdir] can remove what it leads to. *)
Definition proper_end (p : string) : bool :=
  match last (trim (components p)) with
  | Some c => negb (String.eqb c "" || String.eqb c "." || String.eqb c "..")
  | None => false
  end.

(** [shutil.rmtree(p, ignore_errors=True)]: when [p] leads to a directory,
    everything below it goes, and the directory itself unless [p] ends
    with [.] or [..] or is the root, where [rmdir] fails; in every other
    case nothing happens.  Nothing is raised. *)
Definition rmtree (f : files) (cwd : list string) (p : string) : files :=
  match locate f cwd p (components p) with
  | inl _ => f
  | inr place =>
      match node_of f place with
      | Some Dir =>
          filter (fun kv =>
                    (inside place (fst kv)
                     && (proper_end p
                         || (List.length place <? List.length (fst kv))%nat))
                    = false) f
      | _ => f
      end
  end.

End Disk.

(** ** The world the program runs in *)

(** Calls made to the Streamlit front end, in the order they are made. *)
Inductive ui_event : Type :=
| Progress (percent : Z)                 (* [progress.progress(percent, ...)] *)
| ProgressEmpty                          (* [progress.empty()] *)
| Balloons                               (* [st.balloons()] *)
| Success                                (* [st.success(...)] *)
| Caption                                (* [st.caption(...)] *)
| Divider                                (* [st.divider()] *)
| Subheader                              (* [st.subheader(...)] *)
| Markdown (body : string)               (* [st.markdown(body, ...)] *)
| Image (path caption : string)          (* [st.image(path, caption=...)] *)
| Download (file_name data : string)     (* [st.download_button(...)] *)
| Metric (label value : string)          (* [col.metric(label, value)] *)
| ErrorBox (e : exn)                     (* [st.error(...)] *)
| ExceptionBox (e : exn).                (* [st.exception(e)] *)

Record World : Type := mkWorld {
  fs : files;                     (* the file system *)
  cmds : list (list string);      (* argv of every subprocess started *)
  ui : list ui_event;             (* what was shown to the user *)
  cwd : list string               (* the place of the working directory,
                                     which the program never changes *)
}.

(** A value decoded from JSON. *)
Inductive pyval : Type :=
| VNone
| VBool (b : bool)
| VInt (z : Z)
| VFloat (x : float)
| VStr (s : string)
| VList (items : list pyval)
| VDict (items : list (string * pyval)).

(** What [subprocess.run] reports about a finished process. *)
Record completed : Type := mkCompleted {
  returncode : Z;
  stdout : string;
  fs_after : files
}.

(** The external collaborators. *)
Record Env : Type := mkEnv {
  (* start a program; [None]: the executable is not installed *)
  spawn : list string -> files -> option completed;
  (* [json.loads]: the value, or [JSONDecodeError], or what else the
     decoder raises ([RecursionError] on deep nesting) *)
  json_loads : string -> result pyval;
  (* [float(v)] and [int(v)] *)
  to_float : pyval -> result float;
  to_int : pyval -> result Z;
  (* [str(v)], as an f-string inserts a value *)
  to_str : pyval -> string;
  (* [markdown.markdown(text, extensions=[...])] *)
  md_markdown : string -> string;
  (* [client.models.generate_content(...).text] for audio plus prompt *)
  gemini_transcribe : list byte -> result string;
  (* the same call with the prompt of [generate_article], for the four
     texts the prompt is built from: the video name, the custom section,
     the frame lines and the segment lines *)
  gemini_article : string -> string -> string -> string -> result string;
  (* [tempfile.mkdtemp()]: the path on which its search for a free name
     settles *)
  fresh_dir : files -> result string;
  (* [os.environ.get("GEMINI_API_KEY")] *)
  api_key : option string
}.

(** Computations that read and change the world and may raise. *)
Definition M (A : Type) : Type := World -> World * result A.

#[global] Instance M_ret : MRet M := fun A (a : A) w => (w, inr a).
#[global] Instance M_bind : MBind M := fun A B (f : A -> M B) (m : M A) w =>
  match m w with
  | (w', inr a) => f a w'
  | (w', inl e) => (w', inl e)
  end.

Definition raise {A : Type} (e : exn) : M A := fun w => (w, inl e).

Definition lift {A : Type} (r : result A) : M A := fun w => (w, r).

Definition get_fs : M files := fun w => (w, inr (fs w)).

Definition set_fs (f : files) : M unit :=
  fun w => (mkWorld f (cmds w) (ui w) (cwd w), inr tt).

Definition show (e : ui_event) : M unit :=
  fun w => (mkWorld (fs w) (cmds w) (ui w ++ [e]) (cwd w), inr tt).

(** [os.environ["GEMINI_API_KEY"]] *)
Definition require_api_key (env : Env) : M string :=
  match api_key env with
  | Some k => mret k
  | None => raise KeyError
  end.

(** [subprocess.run(argv, capture_output=True, check=check)] *)
Definition subprocess_run (env : Env) (argv : list string) (check : bool)
  : M completed :=
  fun w =>
    let w1 := mkWorld (fs w) (cmds w ++ [argv]) (ui w) (cwd w) in
    match spawn env argv (fs w) with
    | None => (w1, inl FileNotFoundError)
    | Some c =>
        let w2 := mkWorld (fs_after c) (cmds w1) (ui w1) (cwd w1) in
        if check && negb (returncode c =? 0) then (w2, inl CalledProcessError)
        else (w2, inr c)
    end.

(** [v[key]] for a string key. *)
Definition getitem (v : pyval) (key : string) : result pyval :=
  match v with
  | VDict items =>
      match find (fun kv => String.eqb (fst kv) key) items with
      | Some kv => inr (snd kv)
      | None => inl KeyError
      end
  | _ => inl TypeError
  end.

(** What is found at a path. *)
Definition node_at (w : World) (path : string) : result node :=
  Disk.stat (fs w) (cwd w) path.

(** [os.makedirs(path, exist_ok=True)] *)
Definition makedirs (path : string) : M unit :=
  fun w =>
    let '(f, r) := Disk.makedirs (String.length path) (fs w) (cwd w) path in
    (mkWorld f (cmds w) (ui w) (cwd w), r).

(** [os.path.exists(path)] *)
Definition path_exists (path : string) : M bool :=
  fun w => (w, inr (Disk.exists_ (fs w) (cwd w) path)).

(** [open(path, "rb").read()] *)
Definition read_bytes (path : string) : M (list byte) :=
  fun w => (w, Disk.read (fs w) (cwd w) path).

(** ** Media extractor *)

Record FrameRecord : Type := mkFrame {
  index : nat;
  timestamp : Z;
  filename : string;
  path : string
}.

Definition get_video_duration (env : Env) (video_path : string) : M float :=
  r ← subprocess_run env
        ["ffprobe"; "-v"; "quiet"; "-print_format"; "json"; "-show_format";
         video_path] false;
  info ← lift (json_loads env (stdout r));
  fmt ← lift (getitem info "format");
  d ← lift (getitem fmt "duration");
  lift (to_float env d).

(** Lines 91-93 of [extract_frames], with [n] standing for
    [int(duration)]. *)
Definition timestamps (n interval : Z) : result (list Z) :=
  match range 0 n interval with
  | inl e => inl e
  | inr ts => inr (if contains n ts then ts else ts ++ [n - 1])
  end.

Definition frame_filename (i : nat) (ts : Z) : string :=
  "frame_" +:+ fmt_04d i +:+ "_" +:+ str ts +:+ "s.jpg".

Definition ffmpeg_frame_argv (video_path : string) (ts : Z)
  (frame_path : string) : list string :=
  ["ffmpeg"; "-i"; video_path; "-ss"; str ts;
   "-frames:v"; "1"; "-q:v"; "2"; "-y"; frame_path].

(** The record appended for the timestamp [ts] met at position [i]. *)
Definition frame_at (frames_dir : string) (i : nat) (ts : Z) : FrameRecord :=
  mkFrame i ts (frame_filename i ts)
          (path_join frames_dir (frame_filename i ts)).

(** The loop [for i, ts in enumerate(timestamps)], started at index [i]. *)
Fixpoint extract_loop (env : Env) (video_path frames_dir : string)
  (i : nat) (tss : list Z) : M (list FrameRecord) :=
  match tss with
  | [] => mret []
  | ts :: rest =>
      let name := frame_filename i ts in
      let frame_path := path_join frames_dir name in
      _ ← subprocess_run env (ffmpeg_frame_argv video_path ts frame_path) true;
      frames ← extract_loop env video_path frames_dir (S i) rest;
      mret (mkFrame i ts name frame_path :: frames)
  end.

Definition extract_frames (env : Env) (video_path output_dir : string)
  (interval : Z) : M (list FrameRecord) :=
  let frames_dir := path_join output_dir "frames" in
  _ ← makedirs frames_dir;
  duration ← get_video_duration env video_path;
  n ← lift (int_of_float duration);
  tss ← lift (timestamps n interval);
  extract_loop env video_path frames_dir 0 tss.

Definition extract_audio (env : Env) (video_path output_dir : string)
  : M string :=
  let audio_path := path_join output_dir "audio.wav" in
  _ ← subprocess_run env
        ["ffmpeg"; "-i"; video_path; "-vn"; "-acodec"; "pcm_s16le";
         "-ar"; "16000"; "-ac"; "1"; "-y"; audio_path] true;
  mret audio_path.

(** ** Transcription adapter *)

Module Text.

(** The line feed. *)
Definition lf : ascii := ascii_of_nat 10.

(** The UTF-8 encoding of a code point. *)
Definition utf8 (cp : N) : string :=
  let byte (n : N) : ascii := ascii_of_N n in
  let cont (n : N) : ascii := ascii_of_N (128 + n mod 64) in
  (if cp <? 128 then String (byte cp) ""
   else if cp <? 2048 then String (byte (192 + cp / 64)) (String (cont cp) "")
   else if cp <? 65536 then
     String (byte (224 + cp / 4096))
       (String (cont (cp / 64)) (String (cont cp) ""))
   else
     String (byte (240 + cp / 262144))
       (String (cont (cp / 4096))
          (String (cont (cp / 64)) (String (cont cp) ""))))%N.

(** The characters for which [str.isspace] holds, which are those
    [str.strip] removes: the ASCII controls 9-13 and 28-31, the space,
    U+0085, U+00A0, U+1680, U+2000-U+200A, U+2028, U+2029, U+202F, U+205F
    and U+3000. *)
Definition whitespace : list string :=
  map utf8
    [0x9; 0xA; 0xB; 0xC; 0xD; 0x1C; 0x1D; 0x1E; 0x1F; 0x20; 0x85; 0xA0;
     0x1680; 0x2000; 0x2001; 0x2002; 0x2003; 0x2004; 0x2005; 0x2006;
     0x2007; 0x2008; 0x2009; 0x200A; 0x2028; 0x2029; 0x202F; 0x205F;
     0x3000]%N.

(** [w] is the encoding of a white space character. *)
Definition is_space (w : string) : bool := existsb (String.eqb w) whitespace.

(** [s.lstrip()]: a white space character takes one, two or three bytes. *)
Fixpoint lstrip (s : string) : string :=
  match s with
  | "" => ""
  | String a s1 =>
      if is_space (String a "") then lstrip s1
      else
        match s1 with
        | "" => s
        | String b s2 =>
            if is_space (String a (String b "")) then lstrip s2
            else
              match s2 with
              | "" => s
              | String c s3 =>
                  if is_space (String a (String b (String c "")))
                  then lstrip s3
                  else s
              end
        end
  end.

(** [s.isspace() or s == ""] *)
Definition blank (s : string) : bool := String.eqb (lstrip s) "".

(** [s.rstrip()]: what precedes the longest blank end of [s]. *)
Fixpoint rstrip (s : string) : string :=
  match s with
  | "" => ""
  | String c s' => if blank s then "" else String c (rstrip s')
  end.

(** [s.strip()] *)
Definition strip (s : string) : string := lstrip (rstrip s).

(** [s.split("\n")] *)
Fixpoint split_lines (s : string) : list string :=
  match s with
  | "" => [""]
  | String c s' =>
      if Ascii.eqb c lf then "" :: split_lines s'
      else match split_lines s' with
           | l :: ls => String c l :: ls
           | [] => [String c ""]
           end
  end.

(** ["\n".join(lines)] *)
Definition join_lines (lines : list string) : string :=
  String.concat (String lf "") lines.

End Text.

Import Text.

Definition fence : string := "```".

(** The test of the list comprehension of line 156. *)
Definition is_fence_line (l : string) : bool := startswith (strip l) fence.

(** Lines 151-157: the text handed to the JSON decoder. *)
Definition clean_response (response_text : string) : string :=
  let response_text := strip response_text in
  if startswith response_text fence then
    join_lines (filter (fun l => negb (is_fence_line l))
                       (split_lines response_text))
  else response_text.

(** The transcript built when decoding fails. *)
Definition fallback_transcription (response_text : string) : pyval :=
  VDict [("full_text", VStr response_text);
         ("segments",
          VList [VDict [("start", VFloat (Finite 0));
                        ("end", VFloat (Finite 0));
                        ("text", VStr response_text)]])].

(** Lines 159-168. *)
Definition decode_transcription (env : Env) (response_text : string)
  : result pyval :=
  match json_loads env response_text with
  | inr transcription => inr transcription
  | inl JSONDecodeError => inr (fallback_transcription response_text)
  | inl e => inl e
  end.

Definition transcribe_audio_gemini (env : Env) (audio_path : string)
  : M pyval :=
  _ ← require_api_key env;
  audio_data ← read_bytes audio_path;
  response_text ← lift (gemini_transcribe env audio_data);
  lift (decode_transcription env (clean_response response_text)).

(** ** Article renderer *)

Module Base64.

Definition alphabet : string :=
  "ABCDEFGHIJKLMNOPQRSTUVWXYZabcdefghijklmnopqrstuvwxyz0123456789+/".

(** The character for a six-bit group. *)
Definition digit (n : N) : ascii :=
  match String.get (N.to_nat n) alphabet with
  | Some c => c
  | None => "="%char
  end.

(** [base64.b64encode(data).decode()] *)
Fixpoint b64encode (data : list byte) : string :=
  match data with
  | [] => ""
  | [a] =>
      let x := Byte.to_N a in
      String (digit (N.shiftr x 2))
        (String (digit (N.shiftl (N.land x 3) 4)) "==")
  | [a; b] =>
      let x := Byte.to_N a in
      let y := Byte.to_N b in
      String (digit (N.shiftr x 2))
        (String (digit (N.lor (N.shiftl (N.land x 3) 4) (N.shiftr y 4)))
           (String (digit (N.shiftl (N.land y 15) 2)) "="))
  | a :: b :: c :: rest =>
      let x := Byte.to_N a in
      let y := Byte.to_N b in
      let z := Byte.to_N c in
      String (digit (N.shiftr x 2))
        (String (digit (N.lor (N.shiftl (N.land x 3) 4) (N.shiftr y 4)))
           (String (digit (N.lor (N.shiftl (N.land y 15) 2) (N.shiftr z 6)))
              (String (digit (N.land z 63)) (b64encode rest))))
  end.

End Base64.

Module Regex.

(** [s] without the literal [p] in front, when it starts with it. *)
Fixpoint strip_prefix (p s : string) : option string :=
  match p, s with
  | "", _ => Some s
  | String a p', String b s' =>
      if Ascii.eqb a b then strip_prefix p' s' else None
  | String _ _, "" => None
  end.

(** A greedy run of characters other than [stop] followed by [stop]: the
    run and what follows the [stop]. *)
Fixpoint take_until (stop : ascii) (s : string) : option (string * string) :=
  match s with
  | "" => None
  | String c s' =>
      if Ascii.eqb c stop then Some ("", s')
      else match take_until stop s' with
           | Some (run, rest) => Some (String c run, rest)
           | None => None
           end
  end.

(** One attempt of the image pattern at the start of [s]: an exclamation
    mark, an opening bracket, any run of characters other than the closing
    bracket, the closing bracket, an opening parenthesis, the literal
    [frames/], a run of at least one character other than the closing
    parenthesis, and the closing parenthesis.  The result is the alt text,
    what follows [frames/], and the text after the match.  The three
    patterns of [app.py] describe the same matches and differ in their
    groups only, which the callers rebuild. *)
Definition match_image (s : string) : option (string * string * string) :=
  match strip_prefix "![" s with
  | None => None
  | Some s1 =>
      match take_until "]" s1 with
      | None => None
      | Some (alt, s2) =>
          match strip_prefix "(frames/" s2 with
          | None => None
          | Some s3 =>
              match take_until ")" s3 with
              | None => None
              | Some (p, rest) =>
                  if String.eqb p "" then None else Some (alt, p, rest)
              end
          end
      end
  end.

(** The whole text of a match, group 0. *)
Definition group0 (alt p : string) : string :=
  "![" +:+ alt +:+ "](frames/" +:+ p +:+ ")".

(** What the scan of a text meets: a character outside every match, or a
    match. *)
Inductive token : Type :=
| Lit (c : ascii)
| Ref (alt p : string).

(** The left-to-right scan for non-overlapping matches that [re.sub],
    [re.split] and [re.finditer] share.  [skip] counts the characters of
    the match in progress that are still to be passed. *)
Fixpoint scan_from (skip : nat) (s : string) : list token :=
  match s with
  | "" => []
  | String c s' =>
      match skip with
      | S k => scan_from k s'
      | O =>
          match match_image s with
          | Some (alt, p, rest) =>
              Ref alt p
                :: scan_from (String.length s - String.length rest - 1) s'
          | None => Lit c :: scan_from 0 s'
          end
      end
  end.

Definition scan (s : string) : list token := scan_from 0 s.

(** The source text of a token. *)
Definition token_text (t : token) : string :=
  match t with
  | Lit c => String c ""
  | Ref alt p => group0 alt p
  end.

(** [re.split] with the whole pattern in one group: the texts between
    matches, with each match between them. *)
Fixpoint split_tokens (cur : string) (ts : list token) : list string :=
  match ts with
  | [] => [cur]
  | Lit c :: ts' => split_tokens (cur +:+ String c "") ts'
  | Ref alt p :: ts' => cur :: group0 alt p :: split_tokens "" ts'
  end.

Definition re_split (s : string) : list string := split_tokens "" (scan s).

End Regex.

Import Base64 Regex.

(** The path [replace_image_with_base64] looks up for the group
    [img_path]. *)
Definition full_path (frames_dir img_path : string) : string :=
  path_join frames_dir (basename img_path).

(** The text put in the place of a reference to a frame that holds
    [data]. *)
Definition data_uri_image (alt : string) (data : list byte) : string :=
  "![" +:+ alt +:+ "](data:image/jpeg;base64," +:+ b64encode data +:+ ")".

(** The callback of [re.sub] in [generate_preview_html]; [alt] is group 1
    and [frames/p] group 2. *)
Definition replace_image_with_base64 (frames_dir alt p : string) : M string :=
  let img_path := "frames/" +:+ p in
  let full_path := full_path frames_dir img_path in
  found ← path_exists full_path;
  if (found : bool) then
    data ← read_bytes full_path;
    mret (data_uri_image alt data)
  else mret (group0 alt p).

(** [re.sub(pattern, replace_image_with_base64, article_content)] over the
    scanned text. *)
Fixpoint sub_tokens (frames_dir : string) (ts : list token) : M string :=
  match ts with
  | [] => mret ""
  | Lit c :: ts' =>
      out ← sub_tokens frames_dir ts'; mret (String c out)
  | Ref alt p :: ts' =>
      r ← replace_image_with_base64 frames_dir alt p;
      out ← sub_tokens frames_dir ts';
      mret (r +:+ out)
  end.

Definition embed_images (article_content frames_dir : string) : M string :=
  sub_tokens frames_dir (scan article_content).

Section Preview.

(** The fixed text of the page template before and after [{article_html}]. *)
Variables page_head page_tail : string.

Definition generate_preview_html (env : Env)
  (article_content frames_dir : string) : M string :=
  article_with_b64 ← embed_images article_content frames_dir;
  let article_html := md_markdown env article_with_b64 in
  mret (page_head +:+ article_html +:+ page_tail).

End Preview.

(** [display_article]: one call of the front end per part. *)
Fixpoint display_parts (frames_dir : string) (parts : list string) : M unit :=
  match parts with
  | [] => mret tt
  | part :: parts' =>
      _ ← match match_image part with
          | Some (alt, fname, _) =>
              let frame_path := path_join frames_dir fname in
              found ← path_exists frame_path;
              if (found : bool) then show (Image frame_path alt) else mret tt
          | None =>
              if negb (String.eqb (strip part) "") then show (Markdown part)
              else mret tt
          end;
      display_parts frames_dir parts'
  end.

Definition display_article (article frames_dir : string) : M unit :=
  display_parts frames_dir (re_split article).

(** ** Article composer *)

(** The format spec [02d]. *)
Definition fmt_02d (z : Z) : string :=
  let s := NilZero.string_of_uint (N.to_uint (Z.abs_N z)) in
  if z <? 0 then "-" +:+ zeros (1 - String.length s) +:+ s
  else zeros (2 - String.length s) +:+ s.

Definition format_timestamp (env : Env) (seconds : pyval) : result string :=
  match to_int env seconds with
  | inl e => inl e
  | inr n => inr (fmt_02d (n / 60) +:+ ":" +:+ fmt_02d (n mod 60))
  end.

(** One line of [frames_info]. *)
Definition frame_line (env : Env) (f : FrameRecord) : result string :=
  match format_timestamp env (VInt (timestamp f)) with
  | inl e => inl e
  | inr t => inr ("  - " +:+ filename f +:+ " (タイムスタンプ: " +:+ t +:+ ")")
  end.

(** One line of [segments_text]. *)
Definition segment_line (env : Env) (s : pyval) : result string :=
  match getitem s "start" with
  | inl e => inl e
  | inr a =>
      match format_timestamp env a with
      | inl e => inl e
      | inr ta =>
          match getitem s "end" with
          | inl e => inl e
          | inr b =>
              match format_timestamp env b with
              | inl e => inl e
              | inr tb =>
                  match getitem s "text" with
                  | inl e => inl e
                  | inr t =>
                      inr ("[" +:+ ta +:+ " - " +:+ tb +:+ "] "
                               +:+ to_str env t)
                  end
              end
          end
      end
  end.

(** [r] for every element, stopping at the first that raises. *)
Fixpoint traverse {A B : Type} (f : A -> result B) (l : list A)
  : result (list B) :=
  match l with
  | [] => inr []
  | x :: l' =>
      match f x with
      | inl e => inl e
      | inr y =>
          match traverse f l' with
          | inl e => inl e
          | inr ys => inr (y :: ys)
          end
      end
  end.

(** [generate_article].  The prompt is a fixed text around the video name,
    the custom section, the frame lines and the segment lines; these four
    are what the service is given here. *)
Definition generate_article (env : Env) (transcription : pyval)
  (frames : list FrameRecord) (video_filename custom_prompt : string)
  : M string :=
  _ ← require_api_key env;
  frames_info ← lift (traverse (frame_line env) frames);
  segments ← lift (getitem transcription "segments");
  segments_text ←
    match segments with
    | VList items => lift (traverse (segment_line env) items)
    | VDict [] | VStr "" => mret []
    | _ => raise TypeError
    end;
  let custom_section :=
    if String.eqb (strip custom_prompt) "" then ""
    else String lf "## 追加の要件" +:+ String lf (strip custom_prompt)
           +:+ String lf "" in
  lift (gemini_article env video_filename custom_section
          (join_lines frames_info) (join_lines segments_text)).

(** ** The conversion handler *)

(** [try: body  except Exception as e: handler(e)] *)
Definition try_except {A : Type} (body : M A) (handler : exn -> M A) : M A :=
  fun w =>
    match body w with
    | (w', inl e) => handler e w'
    | (w', inr a) => (w', inr a)
    end.

(** [try: body  finally: cleanup] *)
Definition try_finally {A : Type} (body : M A) (cleanup : M unit) : M A :=
  fun w =>
    match body w with
    | (w', r) =>
        match cleanup w' with
        | (w'', inl e) => (w'', inl e)
        | (w'', inr _) => (w'', r)
        end
    end.

(** [shutil.rmtree(d, ignore_errors=True)] *)
Definition rmtree (d : string) : M unit :=
  fun w => (mkWorld (Disk.rmtree (fs w) (cwd w) d) (cmds w) (ui w) (cwd w),
            inr tt).

(** [os.mkdir(path)] *)
Definition mkdir (path : string) : M unit :=
  fun w =>
    match Disk.mkdir (fs w) (cwd w) path with
    | inl e => (w, inl e)
    | inr f => (mkWorld f (cmds w) (ui w) (cwd w), inr tt)
    end.

(** [tempfile.mkdtemp()] *)
Definition mkdtemp (env : Env) : M string :=
  f ← get_fs;
  d ← lift (fresh_dir env f);
  _ ← mkdir d;
  mret d.

(** [with open(path, "wb") as f: f.write(data)] *)
Definition write_bytes (path : string) (data : list byte) : M unit :=
  fun w =>
    match Disk.write (fs w) (cwd w) path data with
    | inl e => (w, inl e)
    | inr f => (mkWorld f (cmds w) (ui w) (cwd w), inr tt)
    end.

(** [Path(name).stem] for a plain file name: the last component without
    its last suffix. *)
Fixpoint rsplit_dot (s : string) : option (string * string) :=
  match s with
  | "" => None
  | String c s' =>
      match rsplit_dot s' with
      | Some (a, b) => Some (String c a, b)
      | None => if Ascii.eqb c "." then Some ("", s') else None
      end
  end.

Definition stem (name : string) : string :=
  let name := basename name in
  match rsplit_dot name with
  | Some (a, b) =>
      if String.eqb a "" || String.eqb b "" then name else a
  | None => name
  end.

(** [len(transcription['segments'])] *)
Definition count_segments (transcription : pyval) : result nat :=
  match getitem transcription "segments" with
  | inl e => inl e
  | inr (VList items) => inr (List.length items)
  | inr (VDict items) => inr (List.length items)
  | inr (VStr s) => inr (String.length s)
  | inr _ => inl TypeError
  end.

Section Handler.

Variables page_head page_tail : string.

(** An upload and the options chosen in the page. *)
Record Request : Type := mkRequest {
  upload_name : string;
  upload_data : list byte;
  interval : Z;
  custom_prompt : string
}.

(** Lines 373-382: what happens before the [try]. *)
Definition prepare (env : Env) (req : Request) : M (string * string * string) :=
  tmp_dir ← mkdtemp env;
  let tmp_video := path_join tmp_dir (upload_name req) in
  _ ← write_bytes tmp_video (upload_data req);
  let output_dir := path_join tmp_dir "output" in
  _ ← makedirs output_dir;
  _ ← show (Progress 0);
  mret (tmp_dir, tmp_video, output_dir).

(** Lines 385-439: the body of the [try]. *)
Definition pipeline (env : Env) (req : Request)
  (tmp_video output_dir : string) : M unit :=
  let video_name := stem (upload_name req) in
  _ ← show (Progress 10);
  audio_path ← extract_audio env tmp_video output_dir;
  _ ← show (Progress 25);
  frames ← extract_frames env tmp_video output_dir (interval req);
  _ ← show (Progress 45);
  transcription ← transcribe_audio_gemini env audio_path;
  _ ← show (Progress 75);
  article ← generate_article env transcription frames video_name
              (custom_prompt req);
  _ ← show (Progress 100);
  _ ← show Balloons;
  _ ← show Success;
  let frames_dir := path_join output_dir "frames" in
  preview_html ← generate_preview_html page_head page_tail env article
                    frames_dir;
  _ ← show (Download (video_name +:+ "_記事.html") preview_html);
  _ ← show Caption;
  _ ← show (Download (video_name +:+ "_記事.md") article);
  _ ← show Divider;
  _ ← show Subheader;
  _ ← display_article article frames_dir;
  _ ← show Divider;
  n ← lift (count_segments transcription);
  _ ← show (Metric "セグメント数" (str (Z.of_nat n)));
  _ ← show (Metric "スクリーンショット"
              (str (Z.of_nat (List.length frames)) +:+ "枚"));
  show (Metric "料金" "¥0").

(** Lines 441-444: the [except Exception] clause. *)
Definition report (e : exn) : M unit :=
  _ ← show ProgressEmpty;
  _ ← show (ErrorBox e);
  show (ExceptionBox e).

(** Lines 384-447: [try ... except ... finally]. *)
Definition guarded (env : Env) (req : Request)
  (tmp_dir tmp_video output_dir : string) : M unit :=
  try_finally
    (try_except (pipeline env req tmp_video output_dir) report)
    (rmtree tmp_dir).

(** One press of the convert button. *)
Definition convert (env : Env) (req : Request) : M unit :=
  '(tmp_dir, tmp_video, output_dir) ← prepare env req;
  guarded env req tmp_dir tmp_video output_dir.

End Handler.

(** ** Start-up checks *)





(** ** Vocabulary of the statements *)

(** Membership of a character in a string. *)
Fixpoint occurs (c : ascii) (s : string) : Prop :=
  match s with
  | "" => False
  | String a s' => a = c \/ occurs c s'
  end.

(** The number a run of decimal digits denotes. *)
Definition value (s : string) : option nat :=
  Nat.of_uint <$> NilEmpty.uint_of_string s.

(** The text a list of tokens stands for. *)
Fixpoint source (ts : list token) : string :=
  match ts with
  | [] => ""
  | t :: ts' => token_text t +:+ source ts'
  end.

(** [s.endswith(p)] *)
Fixpoint endswith (s p : string) : bool :=
  String.eqb s p
  || match s with
     | "" => false
     | String _ s' => endswith s' p
     end.

(** The text neither starts nor ends with a white space character. *)
Definition trimmed (s : string) : bool :=
  negb (existsb (fun w => startswith s w || endswith s w) whitespace).

(** The text holds no line feed. *)
Definition one_line (s : string) : bool :=
  forallb (fun c => negb (Ascii.eqb c lf)) (list_ascii_of_string s).

(** A line of an answer as the fence removal sees it: white space
    characters, and after them either the fence token and whatever follows
    it, or a text that starts with neither white space nor the token. *)
Inductive line : Type :=
| FenceLine (indent : list string) (rest : string)
| TextLine (indent : list string) (body : string).

Definition line_text (l : line) : string :=
  match l with
  | FenceLine indent rest => String.concat "" indent +:+ fence +:+ rest
  | TextLine indent body => String.concat "" indent +:+ body
  end.

Definition line_ok (l : line) : bool :=
  match l with
  | FenceLine indent rest => forallb is_space indent && one_line (line_text l)
  | TextLine indent body =>
      forallb is_space indent && one_line (line_text l)
      && negb (startswith body fence)
      && negb (existsb (startswith body) whitespace)
  end.

(** What the removal leaves of a line. *)
Definition kept (l : line) : list string :=
  match l with
  | FenceLine _ _ => []
  | TextLine _ _ => [line_text l]
  end.

(** The byte [a] is the first one of a white space character. *)
Definition starts_space (a : ascii) : bool :=
  existsb (fun w => match w with
                    | String b _ => Ascii.eqb a b
                    | "" => false
                    end) whitespace.

(** The byte [a] is part of a white space character. *)
Definition space_byte (a : ascii) : bool :=
  existsb (fun w => existsb (Ascii.eqb a) (list_ascii_of_string w)) whitespace.

(** A pure fence delimiter in the words of the specification: a line that
    holds the fence token, at most a language tag of letters and digits
    after it, and white space around. *)
Definition pure_fence_delimiter (l : string) : bool :=
  match strip_prefix fence (strip l) with
  | Some tag =>
      forallb (fun c => let n := nat_of_ascii c in
                        ((48 <=? n) && (n <=? 57) || (65 <=? n) && (n <=? 90)
                         || (97 <=? n) && (n <=? 122))%nat)
              (list_ascii_of_string tag)
  | None => false
  end.

(** The cleaning the specification describes: of a fenced answer, the
    lines that are pure fence delimiters go. *)
Definition clean_response_spec (response_text : string) : string :=
  let response_text := strip response_text in
  if startswith response_text fence then
    join_lines (filter (fun l => negb (pure_fence_delimiter l))
                       (split_lines response_text))
  else response_text.

(** The command line of the probe. *)
Definition ffprobe_argv (video_path : string) : list string :=
  ["ffprobe"; "-v"; "quiet"; "-print_format"; "json"; "-show_format";
   video_path].

(** Closes [~ occurs c s] for a character and a text that are both
    given. *)
Ltac absent :=
  let H := fresh "H" in
  intros H; vm_compute in H;
  repeat (destruct H as [H|H]; [discriminate H|]); exact H.

(** The transcoder is installed and exits with status 0 whatever it is
    asked. *)
Definition transcoder_ok (env : Env) : Prop :=
  forall argv f, exists c,
    spawn env ("ffmpeg" :: argv) f = Some c /\ returncode c = 0.

(** The probe reports the duration [d] for [video_path]. *)
Definition probe_reports (env : Env) (video_path : string) (d : float)
  : Prop :=
  forall w, snd (get_video_duration env video_path w) = inr d.

(** ** A test double for the collaborators

    Every program exits with status 0, the transcoder writes an empty file
    at its last argument, the probe reports [duration], the transcription
    service answers [response], the generation service answers [article],
    and the JSON decoder knows the output of the probe and nothing else. *)

Module Double.

Definition probe_output : string := "probe".

Definition env (duration : Q) (response article : string) : Env := {|
  spawn := fun argv f =>
    Some (match argv with
          | "ffprobe" :: _ => mkCompleted 0 probe_output f
          | _ =>
              mkCompleted 0 ""
                (match Disk.write f [] (List.last argv "") [] with
                 | inr f' => f'
                 | inl _ => f
                 end)
          end);
  json_loads := fun text =>
    if String.eqb text probe_output then
      inr (VDict [("format", VDict [("duration", VFloat (Finite duration))])])
    else inl JSONDecodeError;
  to_float := fun v =>
    match v with
    | VFloat x => inr x
    | VInt z => inr (Finite (inject_Z z))
    | _ => inl TypeError
    end;
  to_int := fun v =>
    match v with
    | VInt z => inr z
    | VFloat x => int_of_float x
    | _ => inl TypeError
    end;
  to_str := fun v => match v with VStr s => s | _ => "" end;
  md_markdown := fun text => "<p>" +:+ text +:+ "</p>";
  gemini_transcribe := fun _ => inr response;
  gemini_article := fun _ _ _ _ => inr article;
  fresh_dir := fun _ => inr "/tmp/tmpq";
  api_key := Some "key"
|}.

(** The same collaborators with the transcription service out of reach. *)
Definition offline : Env :=
  let e := env 65 "" "" in
  mkEnv (spawn e) (json_loads e) (to_float e) (to_int e) (to_str e)
        (md_markdown e) (fun _ => inl ServiceError) (gemini_article e)
        (fresh_dir e) (api_key e).

(** A world with an empty disk; the working directory is the root. *)
Definition empty_world : World := mkWorld ∅ [] [] [].

(** A world that holds one frame in [/d]. *)
Definition one_frame : World :=
  mkWorld (<[["d"; "f.jpg"] := File (list_byte_of_string "Man")]>
             (<[["d"] := Dir]> ∅)) [] [] [].

(** A world that holds the extracted audio track. *)
Definition audio_world : World :=
  mkWorld (<[["o"; "audio.wav"] := File (list_byte_of_string "RIFF")]>
             (<[["o"] := Dir]> ∅)) [] [] [].

(** A world whose disk holds the directory for temporary files and
    nothing else. *)
Definition tmp_world : World := mkWorld (<[["tmp"] := Dir]> ∅) [] [] [].

(** An answer wrapped in a code fence. *)
Definition fenced : string :=
  "```json" +:+ String lf "hello" +:+ String lf "```".

Definition request : Request :=
  mkRequest "talk.mp4" (list_byte_of_string "video") 10 "".

End Double.

(** ** Collaborators that fail *)

Module Faulty.

(** The probe works and reports [duration]; the transcoder is installed
    and exits with status 1 whatever it is asked. *)
Definition rejecting (duration : Q) : Env :=
  let e := Double.env duration "" "" in
  mkEnv (fun argv f =>
           match argv with
           | "ffprobe" :: _ => spawn e argv f
           | _ => Some (mkCompleted 1 "" f)
           end)
        (json_loads e) (to_float e) (to_int e) (to_str e) (md_markdown e)
        (gemini_transcribe e) (gemini_article e) (fresh_dir e) (api_key e).


(** An upload whose name takes more bytes than a directory entry can
    have: ninety characters of three bytes each, and the suffix. *)
Definition long_request : Request :=
  mkRequest (String.concat "" (replicate 90 "あ") +:+ ".mp4")
            (list_byte_of_string "video") 10 "".


End Faulty.

(** * Properties *)

(** ** Strings *)

Lemma string_app_cons a s t : String a s +:+ t = String a (s +:+ t).
Proof. reflexivity. Qed.

Lemma string_app_empty_r s : s +:+ "" = s.
Proof. induction s as [|a s IH]; [done|]. by rewrite string_app_cons, IH. Qed.

Lemma string_app_assoc s t u : (s +:+ t) +:+ u = s +:+ (t +:+ u).
Proof. induction s as [|a s IH]; [done|]. rewrite !string_app_cons. by f_equal. Qed.

Lemma string_length_app s t :
  String.length (s +:+ t) = (String.length s + String.length t)%nat.
Proof. induction s as [|a s IH]; [done|]. rewrite string_app_cons. simpl. lia. Qed.

Lemma occurs_app c s t : occurs c (s +:+ t) <-> occurs c s \/ occurs c t.
Proof.
  induction s as [|a s IH]; [simpl; tauto|].
  rewrite string_app_cons. simpl. tauto.
Qed.

(** Two texts that agree up to the first [c] of each agree on what stands
    before it. *)
Lemma split_at_first c s1 t1 s2 t2 :
  ~ occurs c s1 -> ~ occurs c s2 ->
  s1 +:+ String c t1 = s2 +:+ String c t2 -> s1 = s2 /\ t1 = t2.
Proof.
  revert s2. induction s1 as [|a s1 IH]; intros [|b s2] H1 H2 Heq.
  - by injection Heq as ->.
  - rewrite string_app_cons in Heq. injection Heq as <- _. simpl in H2. tauto.
  - rewrite string_app_cons in Heq. injection Heq as -> _. simpl in H1. tauto.
  - rewrite !string_app_cons in Heq. injection Heq as -> Heq. simpl in H1, H2.
    destruct (IH s2) as [-> ->]; tauto.
Qed.

(** ** The monad *)

Lemma bind_run {A B} (m : M A) (f : A -> M B) w :
  (m ≫= f) w =
  match m w with
  | (w', inr a) => f a w'
  | (w', inl e) => (w', inl e)
  end.
Proof. reflexivity. Qed.

Lemma bind_inr {A B} (m : M A) (f : A -> M B) w w' b :
  (m ≫= f) w = (w', inr b) ->
  exists w1 a, m w = (w1, inr a) /\ f a w1 = (w', inr b).
Proof.
  rewrite bind_run. destruct (m w) as [w1 [e|a]]; [done|]. eauto.
Qed.

Lemma lift_inr {A} (r : result A) w w' a :
  lift r w = (w', inr a) -> w' = w /\ r = inr a.
Proof. unfold lift. by intros [= -> ->]. Qed.

(** ** Range and timestamps *)

Lemma range_misses_stop (n step x : Z) ts :
  range 0 n step = inr ts -> In x ts -> x <> n.
Proof.
  unfold range. destruct (Z.eqb_spec step 0) as [|Hs]; [done|].
  intros [= <-] Hin. apply in_map_iff in Hin as (k & <- & Hk).
  apply in_seq in Hk. unfold range_len in Hk.
  destruct (Z.ltb_spec 0 step), (Z.ltb_spec 0 n); simpl in Hk.
  - assert (Z.of_nat k <= (n - 1 - 0) / step) by lia.
    assert (step * ((n - 1 - 0) / step) <= n - 1 - 0)
      by (apply Z.mul_div_le; lia).
    nia.
  - destruct (Z.ltb_spec step 0); simpl in Hk; lia.
  - destruct (Z.ltb_spec step 0), (Z.ltb_spec n 0); simpl in Hk; lia.
  - destruct (Z.ltb_spec step 0), (Z.ltb_spec n 0); simpl in Hk; try lia.
    assert (Z.of_nat k <= (0 - 1 - n) / (- step)) by lia.
    assert ((- step) * ((0 - 1 - n) / (- step)) <= 0 - 1 - n)
      by (apply Z.mul_div_le; lia).
    nia.
Qed.

Lemma contains_spec x l : contains x l = true <-> In x l.
Proof.
  unfold contains. rewrite existsb_exists. split.
  - intros (y & Hy & ->%Z.eqb_eq). done.
  - intros Hx. exists x. by rewrite Z.eqb_refl.
Qed.

(** The guard of line 92 never fails: [int(duration)] is the stop of the
    range, so the last timestamp is appended in every run. *)
Lemma timestamps_append n step ts :
  range 0 n step = inr ts -> timestamps n step = inr (ts ++ [n - 1]).
Proof.
  intros Hr. unfold timestamps. rewrite Hr.
  destruct (contains n ts) eqn:Hc; [|done].
  apply contains_spec in Hc. by destruct (range_misses_stop n step n ts).
Qed.

Lemma range_ok start stop step :
  step <> 0 -> exists ts, range start stop step = inr ts.
Proof. intros Hs. unfold range. destruct (Z.eqb_spec step 0); [done|]. eauto. Qed.

(** ** Frame names *)

Lemma zeros_no_underscore n : ~ occurs "_" (zeros n).
Proof. induction n as [|n IH]; simpl; [tauto|]. intros [H|H]; [done|tauto]. Qed.

Lemma uint_no_underscore d : ~ occurs "_" (NilEmpty.string_of_uint d).
Proof. induction d; simpl; try tauto; intros [H|H]; done. Qed.

Lemma fmt_04d_no_underscore i : ~ occurs "_" (fmt_04d i).
Proof.
  unfold fmt_04d. rewrite occurs_app. intros [H|H].
  - by apply zeros_no_underscore in H.
  - unfold NilZero.string_of_uint in H.
    destruct (Nat.to_uint i) eqn:E; try (by apply uint_no_underscore in H).
    simpl in H. by destruct H as [H|H].
Qed.

Lemma value_zeros n s : value (zeros n +:+ s) = value s.
Proof.
  induction n as [|n IH]; [done|]. simpl zeros. rewrite string_app_cons.
  unfold value in *. simpl. 
  destruct (NilEmpty.uint_of_string (zeros n +:+ s)) as [d|],
    (NilEmpty.uint_of_string s) as [d'|]; simplify_eq/=; try done.
  f_equal. done.
Qed.

Lemma value_fmt_04d i : value (fmt_04d i) = Some i.
Proof.
  unfold fmt_04d. rewrite value_zeros. unfold value, NilZero.string_of_uint.
  rewrite <- (Unsigned.of_to i) at 2.
  destruct (Nat.to_uint i) eqn:E; try (rewrite <- E, NilEmpty.usu; done).
  done.
Qed.

Lemma fmt_04d_inj i j : fmt_04d i = fmt_04d j -> i = j.
Proof.
  intros H. assert (Some i = Some j) as [= ->]; [|done].
  by rewrite <- !value_fmt_04d, H.
Qed.

(** A frame name determines the index it was built from. *)
Lemma frame_filename_inj i j t u :
  frame_filename i t = frame_filename j u -> i = j.
Proof.
  unfold frame_filename. intros H. apply (inj (String.app "frame_")) in H.
  change ("_" +:+ ?x) with (String "_" x) in H.
  apply split_at_first in H as [H _]; auto using fmt_04d_no_underscore.
  by apply fmt_04d_inj.
Qed.

(** ** The frame loop *)

Section Frames.

Variable env : Env.
Variables video_path frames_dir : string.

(** What the loop returns when it returns. *)
Lemma extract_loop_inr tss : forall i w w' frames,
  extract_loop env video_path frames_dir i tss w = (w', inr frames) ->
  frames = imap (fun k ts => frame_at frames_dir (i + k) ts) tss.
Proof.
  induction tss as [|ts tss IH]; intros i w w' frames H.
  - by injection H as _ <-.
  - simpl in H. apply bind_inr in H as (w1 & c & _ & H).
    apply bind_inr in H as (w2 & rest & Hrest & H).
    injection H as _ <-. apply IH in Hrest as ->.
    simpl. rewrite Nat.add_0_r. f_equal.
    apply imap_ext. intros k t _. unfold compose. by rewrite Nat.add_succ_r.
Qed.

(** With a working transcoder the loop reaches its end. *)
Lemma extract_loop_ok tss : forall i w,
  transcoder_ok env ->
  exists w',
    extract_loop env video_path frames_dir i tss w
    = (w', inr (imap (fun k ts => frame_at frames_dir (i + k) ts) tss)).
Proof.
  induction tss as [|ts tss IH]; intros i w Hok; [by eexists|].
  simpl extract_loop. rewrite bind_run.
  unfold subprocess_run at 1, ffmpeg_frame_argv.
  destruct (Hok (tl (ffmpeg_frame_argv video_path ts
                       (path_join frames_dir (frame_filename i ts)))) (fs w))
    as (c & Hc & Hrc).
  simpl in Hc. rewrite Hc, Hrc. simpl.
  rewrite bind_run.
  match goal with
  | |- context [extract_loop _ _ _ (S i) tss ?w1] =>
      destruct (IH (S i) w1 Hok) as (w' & ->)
  end.
  exists w'. unfold mret, M_ret. do 2 f_equal.
  rewrite Nat.add_0_r. f_equal.
  apply imap_ext. intros k t _. unfold compose. by rewrite Nat.add_succ_r.
Qed.

End Frames.

(** [extract_frames] returns the records of the timestamps of lines
    91-93, numbered from 0. *)
Lemma extract_frames_inr env video_path output_dir interval w w' frames :
  extract_frames env video_path output_dir interval w = (w', inr frames) ->
  exists n tss,
    timestamps n interval = inr tss /\
    frames = imap (frame_at (path_join output_dir "frames")) tss.
Proof.
  unfold extract_frames. intros H.
  apply bind_inr in H as (w1 & [] & _ & H).
  apply bind_inr in H as (w2 & d & _ & H).
  apply bind_inr in H as (w3 & n & _ & H).
  apply bind_inr in H as (w4 & tss & [-> Hts]%lift_inr & H).
  apply extract_loop_inr in H. eauto.
Qed.

Lemma extract_frames_ok env video_path output_dir interval w d n tss :
  snd (makedirs (path_join output_dir "frames") w) = inr tt ->
  probe_reports env video_path d ->
  transcoder_ok env ->
  int_of_float d = inr n ->
  timestamps n interval = inr tss ->
  exists w',
    extract_frames env video_path output_dir interval w
    = (w', inr (imap (frame_at (path_join output_dir "frames")) tss)).
Proof.
  intros Hmk Hprobe Hok Hn Hts. unfold extract_frames.
  rewrite bind_run.
  destruct (makedirs (path_join output_dir "frames") w) as [w1 r1] eqn:E1.
  simpl in Hmk. subst r1.
  rewrite bind_run. specialize (Hprobe w1).
  destruct (get_video_duration env video_path w1) as [w2 r2].
  simpl in Hprobe. subst r2.
  rewrite bind_run. unfold lift at 1. rewrite Hn.
  rewrite bind_run. unfold lift at 1. rewrite Hts.
  apply extract_loop_ok, Hok.
Qed.

(** ** Media extractor: the timestamps *)

(** For a duration of at least a second and a positive interval the last
    timestamp is always there. *)
Lemma timestamps_last n step :
  1 <= n -> 1 <= step ->
  exists ts, timestamps n step = inr ts /\ In (n - 1) ts.
Proof.
  intros Hn Hs. destruct (range_ok 0 n step) as [ts Hts]; [lia|].
  exists (ts ++ [n - 1]). split; [by apply timestamps_append|].
  apply in_or_app. right. by left.
Qed.

(** When the interval divides [int(duration) - 1], the range already
    holds the last timestamp and the append of line 93 repeats it. *)
Lemma timestamps_duplicate n step :
  1 <= n -> 1 <= step -> (n - 1) mod step = 0 ->
  exists ts, timestamps n step = inr ts /\ ~ NoDup ts.
Proof.
  intros Hn Hs Hmod. destruct (range_ok 0 n step) as [ts Hts]; [lia|].
  exists (ts ++ [n - 1]). split; [by apply timestamps_append|].
  intros Hnd. apply NoDup_app in Hnd as (_ & Hdis & _).
  apply (Hdis (n - 1)); [|by left].
  unfold range in Hts. destruct (Z.eqb_spec step 0); [lia|].
  injection Hts as <-. apply list_elem_of_In, in_map_iff.
  exists (Z.to_nat ((n - 1) / step)). split.
  - rewrite Z2Nat.id by (apply Z.div_pos; lia).
    apply Z.mod_divide in Hmod as [k Hk]; [|lia]. rewrite Hk.
    rewrite Z.div_mul by lia. lia.
  - apply in_seq. unfold range_len.
    destruct (Z.ltb_spec 0 step), (Z.ltb_spec 0 n); try lia. simpl.
    replace (n - 1 - 0) with (n - 1) by lia.
    assert (0 <= (n - 1) / step) by (apply Z.div_pos; lia). lia.
Qed.

(** C1.  The timestamp sequence is the range followed by
    [int(duration) - 1], and the guard of line 92, which looks for
    [int(duration)] and not for [int(duration) - 1], does not keep the
    appended value from repeating one of the range: an 11 second video
    probed every 10 seconds yields the timestamps 0, 10, 10, and two frames
    are taken at second 10. *)
Theorem extract_frames_duplicate_timestamp :
  timestamps 11 10 = inr [0; 10; 10] /\
  ~ NoDup [0; 10; 10] /\
  snd (extract_frames (Double.env 11 "" "") "v.mp4" "/o" 10
         Double.empty_world)
  = inr [frame_at "/o/frames" 0 0; frame_at "/o/frames" 1 10;
         frame_at "/o/frames" 2 10].
Proof.
  split; [reflexivity|]. split; [|by vm_compute].
  intros H. apply NoDup_cons in H as [_ H]. apply NoDup_cons in H as [H _].
  apply H. by left.
Qed.

(** C5.  A 65 second video probed every 10 seconds yields eight records,
    with the timestamps 0, 10, 20, 30, 40, 50, 60 and 64 in this order. *)
Theorem extract_frames_65_10 env video_path output_dir w d :
  int_of_float d = inr 65 ->
  snd (makedirs (path_join output_dir "frames") w) = inr tt ->
  probe_reports env video_path d ->
  transcoder_ok env ->
  exists w' frames,
    extract_frames env video_path output_dir 10 w = (w', inr frames) /\
    timestamp <$> frames = [0; 10; 20; 30; 40; 50; 60; 64] /\
    List.length frames = 8%nat.
Proof.
  intros Hd Hmk Hprobe Hok.
  destruct (extract_frames_ok env video_path output_dir 10 w d 65
              [0; 10; 20; 30; 40; 50; 60; 64]) as [w' Hw']; auto.
  exists w'. eexists. split; [exact Hw'|]. by split.
Qed.

Lemma extract_frames_65_10_witness :
  exists w' frames,
    extract_frames (Double.env 65 "" "") "v.mp4" "/o" 10 Double.empty_world
    = (w', inr frames) /\
    timestamp <$> frames = [0; 10; 20; 30; 40; 50; 60; 64] /\
    List.length frames = 8%nat.
Proof.
  apply (extract_frames_65_10 _ _ _ _ (Finite 65)).
  - reflexivity.
  - reflexivity.
  - intros w. reflexivity.
  - intros argv f. eexists. split; reflexivity.
Defined.

(** C7.  In what [extract_frames] returns, the index of a record is its
    position, so indexes increase strictly, and no two records share a
    file name. *)
Theorem extract_frames_index_filename env video_path output_dir interval
    w w' frames :
  extract_frames env video_path output_dir interval w = (w', inr frames) ->
  (forall k r, frames !! k = Some r -> index r = k) /\
  (forall j k rj rk, frames !! j = Some rj -> frames !! k = Some rk ->
     (j < k)%nat -> (index rj < index rk)%nat) /\
  NoDup (filename <$> frames).
Proof.
  intros H. apply extract_frames_inr in H as (n & tss & _ & ->).
  assert (Hpos : forall k r,
    imap (frame_at (path_join output_dir "frames")) tss !! k = Some r ->
    exists ts, r = frame_at (path_join output_dir "frames") k ts).
  { intros k r Hk. rewrite list_lookup_imap in Hk.
    destruct (tss !! k) as [ts|]; [|done]. injection Hk as <-. eauto. }
  split; [|split].
  - intros k r (ts & ->)%Hpos. done.
  - intros j k rj rk (tj & ->)%Hpos (tk & ->)%Hpos Hlt. done.
  - apply NoDup_alt. intros j k name Hj Hk.
    rewrite list_lookup_fmap in Hj, Hk.
    destruct (_ !! j) as [rj|] eqn:Ej; [|done].
    destruct (_ !! k) as [rk|] eqn:Ek; [|done].
    apply Hpos in Ej as (tj & ->). apply Hpos in Ek as (tk & ->).
    rewrite <- Hk in Hj. apply (inj Some) in Hj.
    by apply frame_filename_inj in Hj.
Qed.

Lemma extract_frames_index_filename_witness :
  exists frames,
    snd (extract_frames (Double.env 11 "" "") "v.mp4" "/o" 10
           Double.empty_world) = inr frames /\
    (forall k r, frames !! k = Some r -> index r = k) /\
    (forall j k rj rk, frames !! j = Some rj -> frames !! k = Some rk ->
       (j < k)%nat -> (index rj < index rk)%nat) /\
    NoDup (filename <$> frames).
Proof.
  eexists. split; [by vm_compute|].
  eapply (extract_frames_index_filename (Double.env 11 "" "") "v.mp4" "/o" 10
            Double.empty_world).
  by vm_compute.
Defined.

(** ** Media extractor: videos shorter than a second *)

Lemma int_of_float_floor_0 q : floor q = 0 -> int_of_float (Finite q) = inr 0.
Proof.
  unfold floor. simpl. intros H. f_equal.
  assert (0 <= Qnum q < Z.pos (Qden q)).
  { pose proof (Z.mul_div_le (Qnum q) (Z.pos (Qden q))).
    pose proof (Z.mod_pos_bound (Qnum q) (Z.pos (Qden q))).
    pose proof (Z.div_mod (Qnum q) (Z.pos (Qden q))). lia. }
  by apply Z.quot_small.
Qed.

Lemma timestamps_0 step : step <> 0 -> timestamps 0 step = inr [-1].
Proof.
  intros Hs. unfold timestamps, range, range_len.
  destruct (Z.eqb_spec step 0); [done|].
  by rewrite !andb_false_r.
Qed.

(** C9.  When the probed duration is below one second, the only command
    given to the transcoder asks for the offset -1, and when that command
    succeeds the result is the single record of timestamp -1. *)
Theorem extract_frames_short_video env video_path output_dir interval w q :
  floor q = 0 ->
  interval <> 0 ->
  snd (makedirs (path_join output_dir "frames") w) = inr tt ->
  probe_reports env video_path (Finite q) ->
  let r := frame_at (path_join output_dir "frames") 0 (-1) in
  let run := extract_frames env video_path output_dir interval w in
  timestamp r = -1 /\
  last (cmds (fst run))
  = Some ["ffmpeg"; "-i"; video_path; "-ss"; "-1"; "-frames:v"; "1";
          "-q:v"; "2"; "-y"; path r] /\
  (transcoder_ok env -> snd run = inr [r]).
Proof.
  intros Hq Hs Hmk Hprobe r run. split; [done|].
  assert (exists w2, run =
    match subprocess_run env
            ["ffmpeg"; "-i"; video_path; "-ss"; "-1"; "-frames:v"; "1";
             "-q:v"; "2"; "-y"; path r] true w2 with
    | (w', inr _) => (w', inr [r])
    | (w', inl e) => (w', inl e)
    end) as [w2 ->].
  { subst run. unfold extract_frames. rewrite bind_run.
    destruct (makedirs (path_join output_dir "frames") w) as [w1 r1] eqn:E1.
    simpl in Hmk. subst r1.
    rewrite bind_run. specialize (Hprobe w1).
    destruct (get_video_duration env video_path w1) as [w2 r2].
    simpl in Hprobe. subst r2. exists w2.
    rewrite bind_run. unfold lift at 1. rewrite (int_of_float_floor_0 q Hq).
    rewrite bind_run. unfold lift at 1. rewrite (timestamps_0 interval Hs).
    simpl extract_loop. rewrite bind_run. unfold ffmpeg_frame_argv.
    change (str (-1)) with "-1".
    change (path_join (path_join output_dir "frames") (frame_filename 0 (-1)))
      with (path r).
    by destruct (subprocess_run env _ true w2) as [w' [e|c]]. }
  unfold subprocess_run. split.
  - destruct (spawn env _ (fs w2)) as [c|]; simpl.
    + destruct (returncode c =? 0); simpl; by rewrite last_snoc.
    + by rewrite last_snoc.
  - intros Hok.
    destruct (Hok ["-i"; video_path; "-ss"; "-1"; "-frames:v"; "1";
                   "-q:v"; "2"; "-y"; path r] (fs w2)) as (c & Hc & Hrc).
    by rewrite Hc, Hrc.
Qed.

Lemma extract_frames_short_video_witness :
  floor (1 # 2) = 0 /\
  let r := frame_at "/o/frames" 0 (-1) in
  let run := extract_frames (Double.env (1 # 2) "" "") "v.mp4" "/o" 10
               Double.empty_world in
  timestamp r = -1 /\
  last (cmds (fst run))
  = Some ["ffmpeg"; "-i"; "v.mp4"; "-ss"; "-1"; "-frames:v"; "1";
          "-q:v"; "2"; "-y"; path r] /\
  (transcoder_ok (Double.env (1 # 2) "" "") -> snd run = inr [r]).
Proof.
  split; [reflexivity|].
  apply (extract_frames_short_video (Double.env (1 # 2) "" "") "v.mp4" "/o"
           10 Double.empty_world (1 # 2)).
  - reflexivity.
  - lia.
  - reflexivity.
  - intros w. reflexivity.
Defined.

(** ** Transcription adapter *)

Lemma split_lines_nonempty s : split_lines s <> [].
Proof.
  destruct s as [|c s]; [done|]. simpl.
  destruct (Ascii.eqb c lf); [done|]. by destruct (split_lines s).
Qed.

(** No line of a split holds a line feed. *)
Lemma split_lines_no_lf s l : In l (split_lines s) -> ~ occurs lf l.
Proof.
  revert l. induction s as [|c s IH]; intros l Hl.
  - destruct Hl as [<-|[]]. simpl. tauto.
  - simpl in Hl. destruct (Ascii.eqb_spec c lf) as [->|Hc].
    + destruct Hl as [<-|Hl]; [simpl; tauto|by apply IH].
    + destruct (split_lines s) as [|l0 ls] eqn:E.
      * by destruct (split_lines_nonempty s).
      * destruct Hl as [<-|Hl].
        -- simpl. intros [H|H]; [done|]. apply (IH l0); [by left|done].
        -- apply IH. by right.
Qed.

(** Joining the lines of a split gives the text back. *)
Lemma join_split_lines s : join_lines (split_lines s) = s.
Proof.
  induction s as [|c s IH]; [done|]. simpl.
  destruct (Ascii.eqb_spec c lf) as [->|Hc].
  - unfold join_lines in *. simpl.
    destruct (split_lines s) as [|l0 ls] eqn:E.
    + by destruct (split_lines_nonempty s).
    + by rewrite IH.
  - unfold join_lines in *.
    destruct (split_lines s) as [|l0 ls] eqn:E.
    + by destruct (split_lines_nonempty s).
    + simpl in *. destruct ls; [by rewrite IH|].
      rewrite string_app_cons. by rewrite IH.
Qed.

Lemma split_lines_app_lf l s :
  ~ occurs lf l -> split_lines (l +:+ String lf s) = l :: split_lines s.
Proof.
  induction l as [|c l IH]; intros Hl.
  - reflexivity.
  - rewrite string_app_cons. simpl in *.
    destruct (Ascii.eqb_spec c lf) as [->|Hc]; [tauto|].
    rewrite IH by tauto. done.
Qed.

Lemma split_lines_line l : ~ occurs lf l -> split_lines l = [l].
Proof.
  induction l as [|c l IH]; intros Hl; [done|]. simpl in *.
  destruct (Ascii.eqb_spec c lf) as [->|Hc]; [tauto|].
  rewrite IH by tauto. done.
Qed.

(** Splitting the join of lines gives the lines back. *)
Lemma split_join_lines ls :
  ls <> [] -> (forall l, In l ls -> ~ occurs lf l) ->
  split_lines (join_lines ls) = ls.
Proof.
  induction ls as [|l ls IH]; intros Hne Hls; [done|].
  unfold join_lines in *. simpl. destruct ls as [|l' ls].
  - apply split_lines_line, Hls. by left.
  - change (String lf "" +:+ ?x) with (String lf x).
    rewrite split_lines_app_lf by (apply Hls; by left).
    f_equal. apply IH; [done|]. intros x Hx. apply Hls. by right.
Qed.

Lemma is_fence_line_empty : is_fence_line "" = false.
Proof. reflexivity. Qed.

(** What [transcribe_audio_gemini] does with the answer of the service. *)
Lemma transcribe_run env audio_path w key data response :
  api_key env = Some key ->
  node_at w audio_path = inr (File data) ->
  gemini_transcribe env data = inr response ->
  transcribe_audio_gemini env audio_path w
  = (w, decode_transcription env (clean_response response)).
Proof.
  intros Hkey Hfile Hresp. unfold transcribe_audio_gemini.
  rewrite bind_run. unfold require_api_key. rewrite Hkey.
  unfold mret at 1, M_ret at 1.
  rewrite bind_run. unfold read_bytes, Disk.read.
  unfold node_at in Hfile. rewrite Hfile.
  rewrite bind_run. unfold lift. by rewrite Hresp.
Qed.

(** ** White space and stripping *)

Lemma startswith_spec s p : startswith s p = true <-> exists r, s = p +:+ r.
Proof.
  unfold startswith. revert s. induction p as [|a p IH]; intros s.
  - split; [by exists s|]. intros _. by destruct s.
  - destruct s as [|b s]; simpl.
    + split; [done|]. by intros [r Hr].
    + destruct (ascii_dec a b) as [->|Hab].
      * rewrite IH. split; intros [r Hr]; exists r.
        -- by rewrite string_app_cons, Hr.
        -- rewrite string_app_cons in Hr. by injection Hr.
      * split; [done|]. intros [r Hr]. rewrite string_app_cons in Hr.
        injection Hr as Hr _. by destruct Hab.
Qed.

Lemma endswith_spec s p : endswith s p = true <-> exists x, s = x +:+ p.
Proof.
  induction s as [|c s IH]; cbn [endswith].
  - rewrite orb_false_r. split.
    + intros ->%String.eqb_eq. by exists "".
    + intros [x Hx]. destruct x; [|done]. change ("" +:+ p) with p in Hx.
      subst p. reflexivity.
  - rewrite orb_true_iff, IH. split.
    + intros [->%String.eqb_eq|[x ->]]; [by exists ""|].
      exists (String c x). by rewrite string_app_cons.
    + intros [x Hx]. destruct x as [|d x].
      * left. change ("" +:+ p) with p in Hx. subst p. apply String.eqb_refl.
      * right. rewrite string_app_cons in Hx. injection Hx as _ ->.
        by exists x.
Qed.

Lemma is_space_In w : is_space w = true <-> In w whitespace.
Proof.
  unfold is_space. rewrite existsb_exists. split.
  - by intros (x & Hx & ->%String.eqb_eq).
  - intros Hw. exists w. split; [done|apply String.eqb_refl].
Qed.

(** Closes a goal about every white space character by going through
    them. *)
Ltac each_space H :=
  apply is_space_In in H; vm_compute in H;
  repeat (destruct H as [H|H]; [subst|]); [..|destruct H].

Lemma space_shape w :
  is_space w = true ->
  (exists a, w = String a "") \/
  (exists a b, w = String a (String b "")) \/
  (exists a b c, w = String a (String b (String c ""))).
Proof.
  intros H. each_space H; eauto 10.
Qed.

Lemma concat_cons w ws :
  String.concat "" (w :: ws) = w +:+ String.concat "" ws.
Proof.
  destruct ws as [|w' ws]; [|reflexivity].
  simpl. by rewrite string_app_empty_r.
Qed.

Lemma concat_app ws1 ws2 :
  String.concat "" (ws1 ++ ws2)
  = String.concat "" ws1 +:+ String.concat "" ws2.
Proof.
  induction ws1 as [|w ws1 IH]; [reflexivity|].
  rewrite <- app_comm_cons, !concat_cons, IH. by rewrite string_app_assoc.
Qed.

(** A white space character in front goes. *)
Lemma lstrip_space w x : is_space w = true -> lstrip (w +:+ x) = lstrip x.
Proof. intros H. each_space H; reflexivity. Qed.

Lemma lstrip_spaces ws x :
  forallb is_space ws = true -> lstrip (String.concat "" ws +:+ x) = lstrip x.
Proof.
  induction ws as [|w ws IH]; [done|]. simpl forallb.
  intros [Hw Hws]%andb_true_iff.
  rewrite concat_cons, string_app_assoc, lstrip_space by done. by apply IH.
Qed.

Lemma blank_spaces ws :
  forallb is_space ws = true -> blank (String.concat "" ws) = true.
Proof.
  intros H. unfold blank.
  rewrite <- (string_app_empty_r (String.concat "" ws)).
  by rewrite lstrip_spaces.
Qed.

(** A byte that starts no white space character stops [lstrip]. *)
Lemma starts_space_head a w' :
  starts_space a = false -> is_space (String a w') = false.
Proof.
  unfold starts_space, is_space. generalize whitespace.
  intros l. induction l as [|w l IH]; [done|]. cbn [existsb].
  intros [Hw Hl]%orb_false_iff. rewrite (IH Hl), orb_false_r.
  destruct w as [|b w]; [done|]. cbn [String.eqb]. by rewrite Hw.
Qed.

Lemma lstrip_stop a s : starts_space a = false -> lstrip (String a s) = String a s.
Proof.
  intros Ha. destruct s as [|b [|c s]]; cbn [lstrip];
    by rewrite !(starts_space_head a).
Qed.

(** How [lstrip] goes on: the text is empty, or a white space character
    in front goes, or no white space character is in front and the text
    stays. *)
Lemma lstrip_cases s :
  s = "" \/
  (exists w x, is_space w = true /\ s = w +:+ x /\ lstrip s = lstrip x /\
               (String.length x < String.length s)%nat) \/
  (s <> "" /\ lstrip s = s /\
   forall w x, is_space w = true -> s <> w +:+ x).
Proof.
  assert (Hshape : forall w x a s1, is_space w = true ->
            String a s1 = w +:+ x ->
            is_space (String a "") = true \/
            (exists b s2, s1 = String b s2 /\
               (is_space (String a (String b "")) = true \/
                exists c s3, s2 = String c s3 /\
                  is_space (String a (String b (String c ""))) = true))).
  { intros w x a s1 Hw Hs. pose proof Hw as Hw'. apply space_shape in Hw
      as [(a1 & ->)|[(a1 & b1 & ->)|(a1 & b1 & c1 & ->)]];
      cbv [String.app] in Hs; simplify_eq; eauto 10. }
  destruct s as [|a s1]; [by left|]. right.
  destruct (is_space (String a "")) eqn:E1.
  { left. exists (String a ""), s1.
    split; [done|]. split; [done|]. split.
    - cbn [lstrip]. by rewrite E1.
    - simpl. lia. }
  destruct s1 as [|b s2].
  { right. split; [done|]. split; [by cbn [lstrip]; rewrite E1|].
    intros w x Hw Hs.
    destruct (Hshape w x _ _ Hw Hs) as [H|(? & ? & ? & _)]; congruence. }
  destruct (is_space (String a (String b ""))) eqn:E2.
  { left. exists (String a (String b "")), s2.
    split; [done|]. split; [done|]. split.
    - cbn [lstrip]. by rewrite E1, E2.
    - simpl. lia. }
  destruct s2 as [|c s3].
  { right. split; [done|]. split; [by cbn [lstrip]; rewrite E1, E2|].
    intros w x Hw Hs.
    destruct (Hshape w x _ _ Hw Hs)
      as [H|(? & ? & ? & [H|(? & ? & ? & _)])]; simplify_eq; congruence. }
  destruct (is_space (String a (String b (String c "")))) eqn:E3.
  { left. exists (String a (String b (String c ""))), s3.
    split; [done|]. split; [done|]. split.
    - cbn [lstrip]. by rewrite E1, E2, E3.
    - simpl. lia. }
  right. split; [done|]. split; [by cbn [lstrip]; rewrite E1, E2, E3|].
  intros w x Hw Hs.
  destruct (Hshape w x _ _ Hw Hs)
    as [H|(? & ? & ? & [H|(? & ? & ? & H)])]; simplify_eq; congruence.
Qed.

(** The bytes after the first one of a white space character start no
    white space character. *)
Lemma space_tail w a t b :
  is_space w = true -> w = String a t -> occurs b t ->
  starts_space b = false.
Proof.
  intros H Hw Hb. each_space H; injection Hw as <- <-;
    simpl in Hb; intuition (subst; reflexivity).
Qed.

Lemma space_bytes w c : is_space w = true -> occurs c w -> space_byte c = true.
Proof.
  intros H Hc. each_space H; simpl in Hc; intuition (subst; reflexivity).
Qed.

(** A blank text consists of bytes of white space characters. *)
Lemma blank_bytes s c : blank s = true -> occurs c s -> space_byte c = true.
Proof.
  remember (String.length s) as n eqn:Hn. revert s Hn.
  induction n as [n IH] using lt_wf_ind. intros s Hn Hb Hc.
  destruct (lstrip_cases s) as [->|[(w & x & Hw & -> & Hl & Hlen)|(Hne & Hl & _)]].
  - destruct Hc.
  - rewrite occurs_app in Hc. destruct Hc as [Hc|Hc]; [by apply (space_bytes w)|].
    apply (IH (String.length x) ltac:(lia) x eq_refl); [|done].
    unfold blank in *. by rewrite <- Hl.
  - unfold blank in Hb. rewrite Hl in Hb. apply String.eqb_eq in Hb. done.
Qed.

Lemma blank_solid x c y : space_byte c = false -> blank (x +:+ String c y) = false.
Proof.
  intros Hc. destruct (blank (x +:+ String c y)) eqn:Hb; [|done].
  rewrite (blank_bytes _ c Hb) in Hc; [done|].
  rewrite occurs_app. right. by left.
Qed.

(** White space at the end does not decide whether what precedes it is
    blank. *)
Lemma blank_app_spaces y ws :
  forallb is_space ws = true ->
  blank (y +:+ String.concat "" ws) = blank y.
Proof.
  intros Hws. remember (String.length y) as n eqn:Hn. revert y Hn.
  induction n as [n IH] using lt_wf_ind. intros y Hn.
  destruct (lstrip_cases y) as [->|[(w & x & Hw & -> & Hl & Hlen)|(Hne & Hl & Hno)]].
  - change (blank (String.concat "" ws) = blank "").
    by rewrite (blank_spaces ws).
  - unfold blank at 1 2. rewrite string_app_assoc, lstrip_space, Hl by done.
    apply (IH (String.length x) ltac:(lia) x eq_refl).
  - unfold blank at 2. rewrite Hl.
    destruct y as [|a y]; [done|]. cbn [String.eqb].
    destruct (blank (String a y +:+ String.concat "" ws)) eqn:Hb; [|done].
    exfalso. unfold blank in Hb. apply String.eqb_eq in Hb.
    destruct (lstrip_cases (String a y +:+ String.concat "" ws))
      as [He|[(w & x & Hw & He & _)|(_ & Hl' & _)]].
    + by rewrite string_app_cons in He.
    + (* a white space character across the border *)
      destruct ws as [|w1 ws]; [rewrite string_app_empty_r in He;
                                by apply (Hno w x)|].
      simpl in Hws. apply andb_true_iff in Hws as [Hw1 Hws].
      rewrite concat_cons in He.
      assert (Hw1' : exists b t, w1 = String b t /\ starts_space b = true).
      { clear -Hw1. each_space Hw1; by eexists _, _. }
      destruct Hw1' as (b & t & -> & Hb1).
      assert (Hborder : forall u v p q : string,
                u +:+ v = p +:+ q ->
                (exists r, u = p +:+ r) \/ (exists r, p = u +:+ r /\ v = r +:+ q)).
      { clear. intros u. induction u as [|c u IHu]; intros v p q H.
        - right. exists p. by split.
        - destruct p as [|d p]; [left; by exists (String c u)|].
          rewrite !string_app_cons in H. injection H as -> H.
          destruct (IHu _ _ _ H) as [(r & ->)|(r & -> & ->)].
          + left. exists r. by rewrite string_app_cons.
          + right. exists r. by rewrite string_app_cons. }
      destruct (Hborder _ _ _ _ He) as [(r & Hr)|(r & Hr & Hv)].
      * by apply (Hno w r).
      * destruct r as [|b' r].
        { rewrite string_app_empty_r in Hr. subst w. by apply (Hno (String a y) ""),
            eq_sym, string_app_empty_r. }
        rewrite !string_app_cons in Hv. injection Hv as <- _.
        rewrite string_app_cons in Hr.
        rewrite (space_tail w a (y +:+ String b r) b Hw Hr) in Hb1; [done|].
        rewrite occurs_app. right. by left.
    + rewrite Hl' in Hb. by rewrite string_app_cons in Hb.
Qed.

(** A blank text that is not empty ends with a white space character. *)
Lemma blank_ends s :
  blank s = true -> s <> "" -> exists w, is_space w = true /\ endswith s w = true.
Proof.
  remember (String.length s) as n eqn:Hn. revert s Hn.
  induction n as [n IH] using lt_wf_ind. intros s Hn Hb Hne.
  destruct (lstrip_cases s) as [->|[(w & x & Hw & -> & Hl & Hlen)|(_ & Hl & _)]].
  - done.
  - destruct x as [|c x].
    + exists w. split; [done|]. apply endswith_spec. exists "".
      by rewrite string_app_empty_r.
    + destruct (IH (String.length (String c x)) ltac:(lia) _ eq_refl)
        as (w' & Hw' & He); [|done|].
      * unfold blank in *. by rewrite <- Hl.
      * exists w'. split; [done|]. apply endswith_spec.
        apply endswith_spec in He as [y ->]. exists (w +:+ y).
        by rewrite string_app_assoc.
  - unfold blank in Hb. rewrite Hl in Hb. apply String.eqb_eq in Hb.
    congruence.
Qed.

Lemma rstrip_blank s : blank s = true -> rstrip s = "".
Proof. intros H. destruct s as [|c s]; [done|]. cbn [rstrip]. by rewrite H. Qed.

(** White space at the end goes. *)
Lemma rstrip_spaces x ws :
  forallb is_space ws = true -> rstrip (x +:+ String.concat "" ws) = rstrip x.
Proof.
  intros Hws. induction x as [|c x IH].
  - apply rstrip_blank, (blank_spaces ws Hws).
  - rewrite string_app_cons. cbn [rstrip]. rewrite <- string_app_cons.
    by rewrite blank_app_spaces, IH.
Qed.

(** A text with no blank end stays. *)
Lemma rstrip_keep m :
  (forall x y, m = x +:+ y -> y <> "" -> blank y = false) -> rstrip m = m.
Proof.
  induction m as [|c m IH]; intros H; [done|]. cbn [rstrip].
  rewrite (H "" (String c m)) by done. f_equal. apply IH.
  intros x y -> Hy. by apply (H (String c x) y).
Qed.

Lemma rstrip_trimmed m :
  existsb (endswith m) whitespace = false -> rstrip m = m.
Proof.
  intros Hm. apply rstrip_keep. intros x y -> Hy.
  destruct (blank y) eqn:Hb; [|done].
  destruct (blank_ends y Hb Hy) as (w & Hw & He).
  assert (existsb (endswith (x +:+ y)) whitespace = true); [|congruence].
  apply existsb_exists. exists w. split; [by apply is_space_In|].
  apply endswith_spec. apply endswith_spec in He as [z ->].
  exists (x +:+ z). by rewrite string_app_assoc.
Qed.

(** A byte that belongs to no white space character keeps what precedes
    it. *)
Lemma rstrip_solid x c y :
  space_byte c = false -> rstrip (x +:+ String c y) = x +:+ String c (rstrip y).
Proof.
  intros Hc. induction x as [|a x IH].
  - change (rstrip (String c y) = String c (rstrip y)). cbn [rstrip].
    pose proof (blank_solid "" c y Hc) as H.
    change ("" +:+ String c y) with (String c y) in H. by rewrite H.
  - rewrite !string_app_cons. cbn [rstrip]. rewrite <- string_app_cons.
    by rewrite blank_solid, IH.
Qed.

(** White space in front of a text that is not blank stays. *)
Lemma rstrip_space w z :
  is_space w = true -> blank z = false -> rstrip (w +:+ z) = w +:+ rstrip z.
Proof.
  intros Hw Hz.
  assert (Hwz : blank (w +:+ z) = false)
    by (unfold blank in *; by rewrite lstrip_space).
  assert (Hstop : forall b, starts_space b = false ->
            rstrip (String b z) = String b (rstrip z)).
  { intros b Hb. cbn [rstrip]. unfold blank at 1.
    by rewrite lstrip_stop. }
  assert (Hstop2 : forall b c, starts_space b = false ->
            starts_space c = false ->
            rstrip (String b (String c z)) = String b (String c (rstrip z))).
  { intros b c Hb Hc. cbn [rstrip]. unfold blank at 1.
    rewrite lstrip_stop by done. cbn [String.eqb]. f_equal.
    by apply Hstop. }
  pose proof Hw as Hw'. apply space_shape in Hw'
    as [(a & ->)|[(a & b & ->)|(a & b & c & ->)]].
  - change (rstrip (String a z) = String a (rstrip z)). cbn [rstrip].
    change (String a z) with (String a "" +:+ z). by rewrite Hwz.
  - change (rstrip (String a (String b z)) = String a (String b (rstrip z))).
    cbn [rstrip]. change (String a (String b z)) with (String a (String b "") +:+ z).
    rewrite Hwz. f_equal. apply Hstop.
    apply (space_tail _ a (String b "") b Hw eq_refl). by left.
  - change (rstrip (String a (String b (String c z)))
            = String a (String b (String c (rstrip z)))).
    cbn [rstrip].
    change (String a (String b (String c z)))
      with (String a (String b (String c "")) +:+ z).
    rewrite Hwz. f_equal. apply Hstop2.
    + apply (space_tail _ a (String b (String c "")) b Hw eq_refl). by left.
    + apply (space_tail _ a (String b (String c "")) c Hw eq_refl).
      right. by left.
Qed.

Lemma rstrip_indent ws z :
  forallb is_space ws = true -> blank z = false ->
  rstrip (String.concat "" ws +:+ z) = String.concat "" ws +:+ rstrip z.
Proof.
  intros Hws Hz. induction ws as [|w ws IH]; [done|].
  simpl in Hws. apply andb_true_iff in Hws as [Hw Hws].
  rewrite concat_cons, !string_app_assoc.
  rewrite rstrip_space, IH; [done..|].
  unfold blank in *. by rewrite lstrip_spaces.
Qed.

Lemma rstrip_prefix s : exists t, s = rstrip s +:+ t.
Proof.
  induction s as [|c s [t IH]]; [by exists ""|]. cbn [rstrip].
  destruct (blank (String c s)); [by exists (String c s)|].
  exists t. by rewrite string_app_cons, <- IH.
Qed.

Lemma lstrip_keep m :
  existsb (startswith m) whitespace = false -> lstrip m = m.
Proof.
  intros Hm.
  destruct (lstrip_cases m) as [->|[(w & x & Hw & -> & _)|(_ & Hl & _)]];
    [done| |done].
  assert (existsb (startswith (w +:+ x)) whitespace = true); [|congruence].
  apply existsb_exists. exists w. split; [by apply is_space_In|].
  apply startswith_spec. by exists x.
Qed.

(** What [strip] does: of a text with white space characters before and
    after a part that neither starts nor ends with one, the part
    remains. *)
Lemma strip_spec before after m :
  forallb is_space before = true -> forallb is_space after = true ->
  trimmed m = true ->
  strip (String.concat "" before +:+ m +:+ String.concat "" after) = m.
Proof.
  intros Hb Ha Hm. unfold trimmed in Hm. apply negb_true_iff in Hm.
  assert (Hs : existsb (startswith m) whitespace = false
               /\ existsb (endswith m) whitespace = false).
  { revert Hm. generalize whitespace. intros l.
    induction l as [|w l IH]; [done|]. cbn [existsb].
    rewrite !orb_false_iff. intuition. }
  destruct Hs as [Hstart Hend].
  unfold strip. rewrite <- string_app_assoc, rstrip_spaces by done.
  destruct m as [|c m].
  - rewrite string_app_empty_r, rstrip_blank by by apply blank_spaces.
    done.
  - rewrite rstrip_indent, rstrip_trimmed, lstrip_spaces by
      (try done; unfold blank; by rewrite lstrip_keep).
    by apply lstrip_keep.
Qed.

(** ** The fence test of line 156 *)

(** A line that has the fence token after its leading white space is a
    fence line, whatever follows the token. *)
Lemma is_fence_line_fence ws rest :
  forallb is_space ws = true ->
  is_fence_line (String.concat "" ws +:+ fence +:+ rest) = true.
Proof.
  intros Hws. unfold is_fence_line, strip.
  change (fence +:+ rest) with ("``" +:+ String "`" rest).
  rewrite <- string_app_assoc, rstrip_solid by done.
  rewrite string_app_assoc, lstrip_spaces by done.
  change ("``" +:+ String "`" (rstrip rest))
    with (String "`" ("``" +:+ rstrip rest)).
  rewrite lstrip_stop by done.
  apply startswith_spec. by exists (rstrip rest).
Qed.

(** A line that has something else after its leading white space is
    none. *)
Lemma is_fence_line_text ws body :
  forallb is_space ws = true ->
  startswith body fence = false ->
  existsb (startswith body) whitespace = false ->
  is_fence_line (String.concat "" ws +:+ body) = false.
Proof.
  intros Hws Hfence Hstart. unfold is_fence_line, strip.
  destruct body as [|c body].
  { rewrite string_app_empty_r, rstrip_blank by by apply blank_spaces.
    done. }
  rewrite rstrip_indent, lstrip_spaces by
    (try done; unfold blank; by rewrite lstrip_keep).
  destruct (rstrip_prefix (String c body)) as [t Ht].
  destruct (startswith (lstrip (rstrip (String c body))) fence) eqn:E; [|done].
  exfalso.
  destruct (lstrip_cases (rstrip (String c body)))
    as [He|[(w & x & Hw & He & _)|(_ & Hl & _)]].
  - by rewrite He in E.
  - assert (existsb (startswith (String c body)) whitespace = true);
      [|congruence].
    apply existsb_exists. exists w. split; [by apply is_space_In|].
    apply startswith_spec. exists (x +:+ t).
    by rewrite Ht at 1; rewrite He, string_app_assoc.
  - rewrite Hl in E. apply startswith_spec in E as [r Hr].
    assert (startswith (String c body) fence = true); [|congruence].
    apply startswith_spec. exists (r +:+ t).
    by rewrite Ht at 1; rewrite Hr, string_app_assoc.
Qed.

Lemma one_line_no_lf s : one_line s = true -> ~ occurs lf s.
Proof.
  unfold one_line. induction s as [|c s IH]; [by intros _ []|].
  simpl. intros [Hc Hs]%andb_true_iff [->|H]; [|by apply IH].
  by rewrite Ascii.eqb_refl in Hc.
Qed.

Lemma filter_fence_lines ls :
  forallb line_ok ls = true ->
  filter (fun l => negb (is_fence_line l)) (line_text <$> ls)
  = flat_map kept ls.
Proof.
  induction ls as [|l ls IH]; [done|]. cbn [forallb].
  intros [Hl Hls]%andb_true_iff. rewrite fmap_cons. cbn [flat_map].
  rewrite <- (IH Hls). destruct l as [ws rest|ws body]; cbn [line_ok] in Hl.
  - apply andb_true_iff in Hl as [Hws _].
    rewrite filter_cons_False; [done|].
    cbn [line_text]. rewrite is_fence_line_fence by done. simpl. tauto.
  - apply andb_true_iff in Hl as [Hl Hstart].
    apply andb_true_iff in Hl as [Hl Hfence].
    apply andb_true_iff in Hl as [Hws _].
    apply negb_true_iff in Hstart, Hfence.
    rewrite filter_cons_True; [done|].
    cbn [line_text]. by rewrite is_fence_line_text.
Qed.

Lemma line_ok_no_lf l : line_ok l = true -> ~ occurs lf (line_text l).
Proof.
  intros H. apply one_line_no_lf. destruct l; cbn [line_ok] in H.
  - by apply andb_true_iff in H as [_ H].
  - apply andb_true_iff in H as [H _]. apply andb_true_iff in H as [H _].
    by apply andb_true_iff in H as [_ H].
Qed.

(** ** Transcription adapter: the fallback and the fence removal *)

(** C2, as stated: the full text of the fallback transcript would be the
    raw answer of the service.  For an answer wrapped in a code fence the
    decoder is given the text between the fence lines, rejects it, and the
    fallback carries that text, not the raw answer. *)
Lemma transcribe_fallback_not_raw :
  let env := Double.env 65 Double.fenced "" in
  json_loads env (clean_response Double.fenced) = inl JSONDecodeError /\
  exists t,
    snd (transcribe_audio_gemini env "/o/audio.wav" Double.audio_world)
    = inr t /\
    getitem t "full_text" = inr (VStr "hello") /\
    getitem t "full_text" <> inr (VStr Double.fenced).
Proof.
  split; [reflexivity|]. eexists.
  split; [vm_compute; reflexivity|]. by split.
Qed.

(** C2, amended.  When the decoder rejects the cleaned answer with
    [JSONDecodeError] -- the answer without surrounding white space and,
    if it started with a fence, without its fence lines --
    [transcribe_audio_gemini] raises nothing and returns a transcript with
    one segment from 0.0 to 0.0 whose text, like the full text, is the
    cleaned answer.  Any other error of the decoder is raised. *)
Theorem transcribe_fallback env audio_path w key data response :
  api_key env = Some key ->
  node_at w audio_path = inr (File data) ->
  gemini_transcribe env data = inr response ->
  let text := clean_response response in
  let run := transcribe_audio_gemini env audio_path w in
  (json_loads env text = inl JSONDecodeError ->
   run = (w, inr (VDict
            [("full_text", VStr text);
             ("segments",
              VList [VDict [("start", VFloat (Finite 0));
                            ("end", VFloat (Finite 0));
                            ("text", VStr text)]])]))) /\
  (forall e, json_loads env text = inl e -> e <> JSONDecodeError ->
     run = (w, inl e)).
Proof.
  intros Hkey Hfile Hresp text run. subst run.
  rewrite (transcribe_run env audio_path w key data response) by done.
  unfold decode_transcription. fold text. split.
  - by intros ->.
  - intros e -> He. by destruct e.
Qed.

Lemma transcribe_fallback_witness :
  let env := Double.env 65 Double.fenced "" in
  transcribe_audio_gemini env "/o/audio.wav" Double.audio_world
  = (Double.audio_world,
     inr (VDict
       [("full_text", VStr "hello");
        ("segments",
         VList [VDict [("start", VFloat (Finite 0));
                       ("end", VFloat (Finite 0));
                       ("text", VStr "hello")]])])).
Proof.
  apply (transcribe_fallback (Double.env 65 Double.fenced "") "/o/audio.wav"
           Double.audio_world "key" (list_byte_of_string "RIFF")
           Double.fenced); [reflexivity|vm_compute; reflexivity|reflexivity..].
Defined.

(** C6, as stated: of a fenced answer only the lines that are pure fence
    delimiters would go.  The answer that carries its JSON on the line of
    the fence token has no such line, so it would reach the decoder whole;
    the code drops the line and hands the decoder the empty text. *)
Lemma clean_response_drops_content :
  let answer := "```[1]```" in
  pure_fence_delimiter answer = false /\
  clean_response_spec answer = answer /\
  clean_response answer = "".
Proof. repeat split; vm_compute; reflexivity. Qed.

(** C6, amended.  Take an answer that is a text between white space
    characters, the text itself neither starting nor ending with one, and
    read the text as lines, each of them white space followed either by
    the fence token and anything at all, or by something that starts with
    neither white space nor the token.  If the text starts with the
    token, the decoder is given the lines of the second kind, in their
    order and joined by line feeds: every line with the token in front
    goes, with whatever it carries after the token.  Otherwise the decoder
    is given the text. *)
Theorem clean_response_fence before after ls :
  forallb is_space (before ++ after) = true ->
  forallb line_ok ls = true ->
  let text := join_lines (line_text <$> ls) in
  trimmed text = true ->
  clean_response
    (String.concat "" before +:+ text +:+ String.concat "" after)
  = if startswith text fence then join_lines (flat_map kept ls) else text.
Proof.
  intros Hws Hls text Htext. rewrite forallb_app in Hws.
  apply andb_true_iff in Hws as [Hb Ha].
  unfold clean_response. rewrite strip_spec by done.
  destruct (startswith text fence) eqn:Hfence; [|done].
  assert (Hlines : split_lines text = line_text <$> ls).
  { apply split_join_lines.
    - destruct ls; [|done]. discriminate Hfence.
    - intros l (x & <- & Hx)%in_map_iff. apply line_ok_no_lf.
      rewrite forallb_forall in Hls. by apply Hls. }
  by rewrite Hlines, filter_fence_lines.
Qed.

Lemma clean_response_fence_witness :
  let before := [utf8 0x3000; String lf ""] in
  let after := [" "; String lf ""] in
  let ls := [FenceLine [] "json"; TextLine [" "] "[1]";
             FenceLine [" "; utf8 0x3000] "[2]"; FenceLine [] ""] in
  clean_response
    (String.concat "" before +:+ join_lines (line_text <$> ls)
       +:+ String.concat "" after)
  = " [1]".
Proof.
  intros before after ls.
  apply (clean_response_fence before after ls); reflexivity.
Defined.

(** ** The image pattern *)

Lemma strip_prefix_spec p s r : strip_prefix p s = Some r <-> s = p +:+ r.
Proof.
  revert s. induction p as [|a p IH]; intros s; simpl.
  - split; [by intros [= ->]|by intros ->].
  - destruct s as [|b s]; [done|]. rewrite string_app_cons.
    destruct (Ascii.eqb_spec a b) as [->|Hab].
    + rewrite IH. split; [by intros ->|by intros [= ->]].
    + split; [done|]. intros [= -> _]. done.
Qed.

Lemma take_until_inv c s : forall run rest,
  take_until c s = Some (run, rest) ->
  s = run +:+ String c rest /\ ~ occurs c run.
Proof.
  induction s as [|a s IH]; intros run rest H; simpl in H; [done|].
  destruct (Ascii.eqb_spec a c) as [->|Hac].
  - injection H as <- <-. simpl. tauto.
  - destruct (take_until c s) as [[run' rest']|]; [|done].
    injection H as <- <-. destruct (IH run' rest' eq_refl) as [-> Hrun].
    rewrite string_app_cons. simpl. split; [done|]. intros [?|?]; done.
Qed.

Lemma take_until_app c run rest :
  ~ occurs c run -> take_until c (run +:+ String c rest) = Some (run, rest).
Proof.
  induction run as [|a run IH]; intros Hrun.
  - change (take_until c (String c rest) = Some ("", rest)).
    simpl. by rewrite Ascii.eqb_refl.
  - rewrite string_app_cons. simpl in *.
    destruct (Ascii.eqb_spec a c) as [->|Hac]; [tauto|].
    rewrite IH by tauto. done.
Qed.

Lemma take_until_spec c s run rest :
  take_until c s = Some (run, rest) <->
  s = run +:+ String c rest /\ ~ occurs c run.
Proof.
  split; [apply take_until_inv|]. intros [-> H]. by apply take_until_app.
Qed.

(** A match is the text of a placeholder whose alt text holds no closing
    bracket and whose path is not empty and holds no closing
    parenthesis. *)
Lemma match_image_spec s alt p rest :
  match_image s = Some (alt, p, rest) <->
  s = group0 alt p +:+ rest /\
  ~ occurs "]" alt /\ ~ occurs ")" p /\ p <> "".
Proof.
  unfold match_image, group0. split.
  - destruct (strip_prefix "![" s) as [s1|] eqn:E1; [|done].
    destruct (take_until "]" s1) as [[alt' s2]|] eqn:E2; [|done].
    destruct (strip_prefix "(frames/" s2) as [s3|] eqn:E3; [|done].
    destruct (take_until ")" s3) as [[p' rest']|] eqn:E4; [|done].
    destruct (String.eqb_spec p' "") as [|Hp]; [done|].
    intros [= <- <- <-].
    apply strip_prefix_spec in E1 as ->. apply take_until_spec in E2 as [-> ?].
    apply strip_prefix_spec in E3 as ->. apply take_until_spec in E4 as [-> ?].
    split; [|done]. rewrite !string_app_assoc. reflexivity.
  - intros (-> & Halt & Hp & Hne).
    assert (E1 : strip_prefix "![" (("![" +:+ alt +:+ "](frames/" +:+ p +:+ ")")
                   +:+ rest)
                 = Some (alt +:+ String "]" ("(frames/" +:+ p +:+ String ")" rest))).
    { apply strip_prefix_spec. rewrite !string_app_assoc. reflexivity. }
    rewrite E1.
    assert (E2 : take_until "]"
                   (alt +:+ String "]" ("(frames/" +:+ p +:+ String ")" rest))
                 = Some (alt, "(frames/" +:+ p +:+ String ")" rest))
      by (by apply take_until_spec).
    rewrite E2.
    assert (E3 : strip_prefix "(frames/" ("(frames/" +:+ p +:+ String ")" rest)
                 = Some (p +:+ String ")" rest))
      by (by apply strip_prefix_spec).
    rewrite E3.
    assert (E4 : take_until ")" (p +:+ String ")" rest) = Some (p, rest))
      by (by apply take_until_spec).
    rewrite E4. by destruct (String.eqb_spec p "").
Qed.

(** The scan passes over the characters it was told to skip. *)
Lemma scan_from_skip a s : scan_from (String.length a) (a +:+ s) = scan s.
Proof.
  induction a as [|c a IH]; [done|]. rewrite string_app_cons. simpl. apply IH.
Qed.

Lemma scan_cons c s :
  scan (String c s) =
  match match_image (String c s) with
  | Some (alt, p, rest) =>
      Ref alt p
        :: scan_from (String.length (String c s) - String.length rest - 1) s
  | None => Lit c :: scan s
  end.
Proof. reflexivity. Qed.

Lemma scan_match s alt p rest :
  match_image s = Some (alt, p, rest) -> scan s = Ref alt p :: scan rest.
Proof.
  intros Hm. pose proof Hm as (Hs & _)%match_image_spec.
  unfold group0 in Hs.
  change ("![" +:+ ?x) with (String "!" ("[" +:+ x)) in Hs.
  rewrite string_app_cons in Hs.
  remember ("[" +:+ alt +:+ "](frames/" +:+ p +:+ ")") as g eqn:Hg.
  subst s. rewrite scan_cons, Hm. f_equal.
  replace (_ - _ - 1)%nat with (String.length g)
    by (simpl String.length; rewrite string_length_app; lia).
  apply scan_from_skip.
Qed.

Lemma scan_lit c s :
  match_image (String c s) = None -> scan (String c s) = Lit c :: scan s.
Proof. intros Hm. by rewrite scan_cons, Hm. Qed.

Lemma source_app ts1 ts2 : source (ts1 ++ ts2) = source ts1 +:+ source ts2.
Proof.
  induction ts1 as [|t ts1 IH]; [done|]. simpl. by rewrite IH, string_app_assoc.
Qed.

(** The scan loses nothing: its tokens spell the scanned text. *)
Lemma source_scan s : source (scan s) = s.
Proof.
  remember (String.length s) as n eqn:Hn. revert s Hn.
  induction n as [n IH] using lt_wf_ind. intros s Hn.
  destruct s as [|c s]; [done|].
  destruct (match_image (String c s)) as [[[alt p] rest]|] eqn:Hm.
  - rewrite (scan_match _ _ _ _ Hm). simpl.
    pose proof Hm as (Hs & _)%match_image_spec. rewrite Hs. f_equal.
    apply (IH (String.length rest)); [|done].
    rewrite Hn, Hs, string_length_app. unfold group0.
    rewrite !string_length_app. simpl. lia.
  - rewrite (scan_lit _ _ Hm). simpl. f_equal.
    apply (IH (String.length s)); [|done]. rewrite Hn. simpl. lia.
Qed.

(** Every match the scan reports is one the pattern accepts. *)
Lemma scan_ref_wf s alt p :
  In (Ref alt p) (scan s) ->
  ~ occurs "]" alt /\ ~ occurs ")" p /\ p <> "".
Proof.
  remember (String.length s) as n eqn:Hn. revert s Hn.
  induction n as [n IH] using lt_wf_ind. intros s Hn Hin.
  destruct s as [|c s]; [done|].
  destruct (match_image (String c s)) as [[[alt' p'] rest]|] eqn:Hm.
  - rewrite (scan_match _ _ _ _ Hm) in Hin.
    pose proof Hm as (Hs & Hwf)%match_image_spec.
    destruct Hin as [[= <- <-]|Hin]; [done|].
    apply (IH (String.length rest)) in Hin; [done| |done].
    rewrite Hn, Hs, string_length_app. unfold group0.
    rewrite !string_length_app. simpl. lia.
  - rewrite (scan_lit _ _ Hm) in Hin. destruct Hin as [|Hin]; [done|].
    apply (IH (String.length s)) in Hin; [done| |done]. rewrite Hn. simpl. lia.
Qed.

(** ** Article renderer: substitution *)

(** The callback reads the disk and leaves the world as it is. *)
Lemma replace_image_run frames_dir alt p w :
  replace_image_with_base64 frames_dir alt p w
  = (w, match node_at w (full_path frames_dir ("frames/" +:+ p)) with
        | inr (File data) => inr (data_uri_image alt data)
        | inr Dir => inl IsADirectoryError
        | inl _ => inr (group0 alt p)
        end).
Proof.
  unfold replace_image_with_base64, node_at. rewrite bind_run.
  unfold path_exists, Disk.exists_.
  destruct (Disk.stat (fs w) (cwd w) _) as [e|n] eqn:E; [done|].
  rewrite bind_run. unfold read_bytes, Disk.read. rewrite E.
  by destruct n.
Qed.

Lemma sub_tokens_world frames_dir ts w :
  fst (sub_tokens frames_dir ts w) = w.
Proof.
  induction ts as [|[c|alt p] ts IH]; [done| |]; simpl; rewrite !bind_run.
  - destruct (sub_tokens frames_dir ts w) as [w' [e|o]]; simpl in *; done.
  - rewrite replace_image_run.
    destruct (node_at w _) as [e|[data|]]; [| |done];
      rewrite !bind_run;
      destruct (sub_tokens frames_dir ts w) as [w' [e'|o]]; simpl in *; done.
Qed.

Lemma sub_tokens_lit frames_dir c ts w o :
  sub_tokens frames_dir ts w = (w, inr o) ->
  sub_tokens frames_dir (Lit c :: ts) w = (w, inr (String c o)).
Proof. intros H. simpl. rewrite bind_run, H. done. Qed.

Lemma sub_tokens_ref frames_dir alt p ts w r o :
  replace_image_with_base64 frames_dir alt p w = (w, inr r) ->
  sub_tokens frames_dir ts w = (w, inr o) ->
  sub_tokens frames_dir (Ref alt p :: ts) w = (w, inr (r +:+ o)).
Proof. intros Hr H. simpl. rewrite bind_run, Hr, bind_run, H. done. Qed.

Lemma sub_tokens_cons_inv frames_dir t ts w o :
  sub_tokens frames_dir (t :: ts) w = (w, inr o) ->
  exists r o',
    o = r +:+ o' /\
    sub_tokens frames_dir ts w = (w, inr o') /\
    match t with
    | Lit c => r = String c ""
    | Ref alt p => replace_image_with_base64 frames_dir alt p w = (w, inr r)
    end.
Proof.
  pose proof (sub_tokens_world frames_dir ts w) as Hw.
  destruct t as [c|alt p]; simpl; rewrite bind_run.
  - destruct (sub_tokens frames_dir ts w) as [w' [e|o']]; [done|].
    simpl in Hw. subst w'. intros [= <-]. by exists (String c ""), o'.
  - rewrite replace_image_run.
    destruct (node_at w _) as [e0|[data|]] eqn:E; [| |done];
      rewrite bind_run;
      destruct (sub_tokens frames_dir ts w) as [w' [e|o']]; try done;
      simpl in Hw; subst w'; intros [= <-]; eauto.
Qed.

(** The output for a text is the output for its parts, one after the
    other. *)
Lemma sub_tokens_app frames_dir ts1 ts2 w o1 o2 :
  sub_tokens frames_dir ts1 w = (w, inr o1) ->
  sub_tokens frames_dir ts2 w = (w, inr o2) ->
  sub_tokens frames_dir (ts1 ++ ts2) w = (w, inr (o1 +:+ o2)).
Proof.
  revert o1. induction ts1 as [|t ts1 IH]; intros o1 H1 H2.
  - by injection H1 as <-.
  - apply sub_tokens_cons_inv in H1 as (r & o' & -> & H1 & Ht).
    specialize (IH o' H1 H2). rewrite string_app_assoc, <- app_comm_cons.
    destruct t as [c|alt p].
    + subst r. by apply sub_tokens_lit.
    + by apply sub_tokens_ref.
Qed.

(** The substitution returns as long as no reference leads to a
    directory. *)
Lemma sub_tokens_total frames_dir ts w :
  (forall alt p, In (Ref alt p) ts ->
     node_at w (full_path frames_dir ("frames/" +:+ p)) <> inr Dir) ->
  exists o, sub_tokens frames_dir ts w = (w, inr o).
Proof.
  induction ts as [|t ts IH]; intros Hdir; [by eexists|].
  destruct IH as [o Ho]; [intros alt p Hin; apply (Hdir alt); by right|].
  destruct t as [c|alt p].
  - eexists. by apply sub_tokens_lit.
  - pose proof (Hdir alt p (or_introl eq_refl)) as Hp.
    pose proof (replace_image_run frames_dir alt p w) as Hr.
    destruct (node_at w _) as [e|[data|]]; [| |done];
      eexists; eapply sub_tokens_ref; eauto.
Qed.

(** A reference that leads to a directory stops the substitution:
    [os.path.exists] accepts the directory and [open] refuses it. *)
Lemma replace_image_directory frames_dir alt p w :
  node_at w (full_path frames_dir ("frames/" +:+ p)) = inr Dir ->
  replace_image_with_base64 frames_dir alt p w = (w, inl IsADirectoryError).
Proof. intros H. by rewrite replace_image_run, H. Qed.

(** The image pattern does not match the text that replaced a
    reference. *)
Lemma data_uri_image_no_match alt data :
  ~ occurs "]" alt -> match_image (data_uri_image alt data) = None.
Proof.
  intros Halt. unfold match_image, data_uri_image.
  assert (E1 : strip_prefix "!["
                 ("![" +:+ alt +:+ "](data:image/jpeg;base64,"
                       +:+ b64encode data +:+ ")")
               = Some (alt +:+ String "]" ("(data:image/jpeg;base64,"
                                             +:+ b64encode data +:+ ")")))
    by (by apply strip_prefix_spec).
  rewrite E1. rewrite take_until_app by done. reflexivity.
Qed.
(** ** Base64 text *)

Lemma get_occurs s : forall k c, String.get k s = Some c -> occurs c s.
Proof.
  induction s as [|a s IH]; intros k c H; [done|].
  destruct k as [|k]; simpl in *.
  - injection H as ->. by left.
  - right. by apply (IH k).
Qed.

Lemma digit_alphabet n : occurs (digit n) (alphabet +:+ "=").
Proof.
  unfold digit. apply occurs_app.
  destruct (String.get (N.to_nat n) alphabet) as [c|] eqn:E.
  - left. by apply get_occurs in E.
  - right. by left.
Qed.

(** The encoder writes characters of its alphabet and the padding sign. *)
Lemma b64encode_alphabet data c :
  occurs c (b64encode data) -> occurs c (alphabet +:+ "=").
Proof.
  remember (List.length data) as n eqn:Hn. revert data Hn.
  induction n as [n IH] using lt_wf_ind. intros data Hn H.
  destruct data as [|x [|y [|z rest]]]; simpl in H.
  - done.
  - destruct H as [<-|[<-|[<-|[<-|[]]]]];
      try apply digit_alphabet; apply occurs_app; right; by left.
  - destruct H as [<-|[<-|[<-|[<-|[]]]]];
      try apply digit_alphabet; apply occurs_app; right; by left.
  - destruct H as [<-|[<-|[<-|[<-|H]]]]; try apply digit_alphabet.
    apply (IH (List.length rest)) with (data := rest); [|done|done].
    rewrite Hn. simpl. lia.
Qed.

Lemma b64encode_plain data c :
  ~ occurs c (alphabet +:+ "=") -> ~ occurs c (b64encode data).
Proof. intros Hc H. apply Hc. by apply (b64encode_alphabet data). Qed.

(** ** No placeholder in an embedded image *)

(** A text either lacks [c] or splits at its first [c]. *)
Lemma first_occurrence c s :
  ~ occurs c s \/ exists x y, s = x +:+ String c y /\ ~ occurs c x.
Proof.
  induction s as [|a s IH]; [left; simpl; tauto|].
  destruct (ascii_dec a c) as [->|Hac].
  - right. exists "", s. split; [done|]. simpl. tauto.
  - destruct IH as [IH|(x & y & -> & Hx)].
    + left. simpl. tauto.
    + right. exists (String a x), y. split; [done|]. simpl. tauto.
Qed.

(** Every match the scan reports stands in the scanned text. *)
Lemma scan_ref_origin s alt p :
  In (Ref alt p) (scan s) ->
  exists pre rest, s = pre +:+ group0 alt p +:+ rest /\ ~ occurs "]" alt.
Proof.
  remember (String.length s) as n eqn:Hn. revert s Hn.
  induction n as [n IH] using lt_wf_ind. intros s Hn Hin.
  destruct s as [|c s]; [done|].
  destruct (match_image (String c s)) as [[[alt' p'] rest]|] eqn:Hm.
  - rewrite (scan_match _ _ _ _ Hm) in Hin.
    pose proof Hm as (Hs & Hwf & _)%match_image_spec.
    destruct Hin as [[= <- <-]|Hin]; [by exists "", rest|].
    apply (IH (String.length rest)) in Hin as (pre & rest' & -> & Halt);
      [| |done].
    + exists (group0 alt' p' +:+ pre), rest'. split; [|done].
      by rewrite Hs, string_app_assoc.
    + rewrite Hn, Hs, string_length_app. unfold group0.
      rewrite !string_length_app. simpl. lia.
  - rewrite (scan_lit _ _ Hm) in Hin. destruct Hin as [|Hin]; [done|].
    apply (IH (String.length s)) in Hin as (pre & rest' & -> & Halt);
      [| |done].
    + by exists (String c pre), rest'.
    + rewrite Hn. simpl. lia.
Qed.

(** The scan of the image that replaced a reference finds no
    placeholder: the only closing bracket of the image is followed by the
    data URI, and nothing after it starts a match. *)
Lemma data_uri_image_no_ref alt data a q :
  ~ occurs "]" alt -> ~ In (Ref a q) (scan (data_uri_image alt data)).
Proof.
  intros Halt Hin.
  apply scan_ref_origin in Hin as (pre & rest & Hs & Ha).
  set (uri := "(data:image/jpeg;base64," +:+ b64encode data +:+ ")") in *.
  assert (Huri_bang : ~ occurs "!" uri).
  { unfold uri. rewrite !occurs_app. intros [H|[H|H]]; revert H.
    - absent.
    - apply b64encode_plain. absent.
    - absent. }
  assert (Himg : data_uri_image alt data
                 = ("![" +:+ alt) +:+ String "]" uri).
  { unfold data_uri_image, uri. by rewrite !string_app_assoc. }
  assert (Hhead : ~ occurs "]" ("![" +:+ alt)).
  { rewrite occurs_app. intros [H|H]; [revert H; absent|tauto]. }
  rewrite Himg in Hs. unfold group0 in Hs.
  destruct (first_occurrence "]" pre) as [Hpre|(x & y & -> & Hx)].
  - assert (Hs' : ("![" +:+ alt) +:+ String "]" uri
                  = (pre +:+ "![" +:+ a)
                    +:+ String "]" ("(frames/" +:+ q +:+ ")" +:+ rest)).
    { rewrite Hs, !string_app_assoc. reflexivity. }
    apply split_at_first in Hs' as [_ Hs']; [by discriminate Hs'|done|].
    rewrite !occurs_app. intros [H|[H|H]]; [tauto|revert H; absent|tauto].
  - assert (Hs' : ("![" +:+ alt) +:+ String "]" uri
                  = x +:+ String "]"
                      (y +:+ ("![" +:+ a +:+ "](frames/" +:+ q +:+ ")")
                         +:+ rest)).
    { rewrite Hs, !string_app_assoc. reflexivity. }
    apply split_at_first in Hs' as [_ Hs']; [|done|done].
    apply Huri_bang. rewrite Hs', !occurs_app. right. left. left. by left.
Qed.

Lemma preview_run page_head page_tail env article frames_dir w out :
  embed_images article frames_dir w = (w, inr out) ->
  generate_preview_html page_head page_tail env article frames_dir w
  = (w, inr (page_head +:+ md_markdown env out +:+ page_tail)).
Proof. intros H. unfold generate_preview_html. by rewrite bind_run, H. Qed.

(** C3.  A placeholder whose path ends in [.] is looked up at the frames
    directory itself: [os.path.exists] holds for it and [open] refuses it.
    For the article [A ![x](frames/.) B] and the frames directory [/d],
    which is on the disk, [generate_preview_html] raises
    [IsADirectoryError]: the placeholder is neither replaced by an image
    nor left as it is, and no page is returned. *)
Theorem preview_directory_reference page_head page_tail env :
  let article := "A ![x](frames/.) B" in
  scan article = [Lit "A"; Lit " "; Ref "x" "."; Lit " "; Lit "B"] /\
  path_join "/d" (basename "frames/.") = "/d/." /\
  node_at Double.one_frame "/d/." = inr Dir /\
  generate_preview_html page_head page_tail env article "/d"
    Double.one_frame
  = (Double.one_frame, inl IsADirectoryError).
Proof.
  intros article. split; [reflexivity|]. split; [reflexivity|].
  split; [vm_compute; reflexivity|].
  unfold generate_preview_html, embed_images. rewrite bind_run.
  change (scan article) with [Lit "A"; Lit " "; Ref "x" "."; Lit " "; Lit "B"].
  cbn [sub_tokens]. rewrite !bind_run.
  rewrite (replace_image_directory "/d" "x" "." Double.one_frame);
    [|vm_compute; reflexivity].
  vm_compute. reflexivity.
Qed.

(** X10.  Where the path looked up is no directory the substitution does what
    the page needs.  Take a placeholder the scan of the article finds,
    with the outputs [o1] and [o2] of the substitution for what stands
    before and after it.  The article spells the placeholder as
    [![alt](frames/p)].  When the path looked up holds a file, the
    Markdown given to the converter is [o1], the image
    [![alt](data:image/jpeg;base64,...)] with the same alt text and the
    encoded file, and [o2]; the pattern matches neither that image nor any
    part of it, so no [frames/] path is left of the reference.  When
    nothing is found at the path looked up, the Markdown given to the
    converter is [o1], the placeholder as the article spells it, and
    [o2]. *)
Theorem embed_images_placeholder page_head page_tail env article frames_dir w
    before alt p after o1 o2 :
  scan article = before ++ Ref alt p :: after ->
  sub_tokens frames_dir before w = (w, inr o1) ->
  sub_tokens frames_dir after w = (w, inr o2) ->
  let target := path_join frames_dir (basename ("frames/" +:+ p)) in
  let render := generate_preview_html page_head page_tail env article
                  frames_dir w in
  article = source before +:+ ("![" +:+ alt +:+ "](frames/" +:+ p +:+ ")")
              +:+ source after /\
  (forall data, node_at w target = inr (File data) ->
     let image := "![" +:+ alt +:+ "](data:image/jpeg;base64,"
                       +:+ b64encode data +:+ ")" in
     let out := o1 +:+ image +:+ o2 in
     embed_images article frames_dir w = (w, inr out) /\
     render = (w, inr (page_head +:+ md_markdown env out +:+ page_tail)) /\
     match_image image = None /\
     (forall a q, ~ In (Ref a q) (scan image))) /\
  (forall e, node_at w target = inl e ->
     let out := o1 +:+ ("![" +:+ alt +:+ "](frames/" +:+ p +:+ ")") +:+ o2 in
     embed_images article frames_dir w = (w, inr out) /\
     render = (w, inr (page_head +:+ md_markdown env out +:+ page_tail))).
Proof.
  intros Hscan H1 H2 target render.
  assert (Hwf : ~ occurs "]" alt).
  { apply (scan_ref_wf article alt p). rewrite Hscan.
    apply in_or_app. right. by left. }
  assert (Hout : forall r,
    replace_image_with_base64 frames_dir alt p w = (w, inr r) ->
    embed_images article frames_dir w = (w, inr (o1 +:+ r +:+ o2))).
  { intros r Hr. unfold embed_images. rewrite Hscan.
    apply sub_tokens_app; [done|]. by apply sub_tokens_ref. }
  split; [|split].
  - rewrite <- (source_scan article) at 1. rewrite Hscan, source_app. done.
  - intros data Hfile image out.
    assert (embed_images article frames_dir w = (w, inr out)) as Hrun.
    { apply Hout. rewrite replace_image_run. unfold full_path.
      fold target. by rewrite Hfile. }
    split; [done|]. split; [by apply preview_run|].
    split; [by apply data_uri_image_no_match|].
    intros a q. by apply data_uri_image_no_ref.
  - intros e Hnone out.
    assert (embed_images article frames_dir w = (w, inr out)) as Hrun.
    { apply Hout. rewrite replace_image_run. unfold full_path.
      fold target. by rewrite Hnone. }
    split; [done|]. by apply preview_run.
Qed.

Lemma embed_images_placeholder_witness :
  embed_images "A ![x](frames/f.jpg) B ![y](frames/g.jpg)" "/d"
    Double.one_frame
  = (Double.one_frame,
     inr "A ![x](data:image/jpeg;base64,TWFu) B ![y](frames/g.jpg)")
  /\
  embed_images "![y](frames/g.jpg)" "/d" Double.one_frame
  = (Double.one_frame, inr "![y](frames/g.jpg)").
Proof.
  split.
  - destruct (embed_images_placeholder "<html>" "</html>"
                (Double.env 65 "" "")
                "A ![x](frames/f.jpg) B ![y](frames/g.jpg)" "/d"
                Double.one_frame
                [Lit "A"; Lit " "] "x" "f.jpg"
                (scan " B ![y](frames/g.jpg)") "A " " B ![y](frames/g.jpg)")
      as (_ & Hfile & _); [vm_compute; reflexivity..|].
    destruct (Hfile (list_byte_of_string "Man")) as (Hrun & _);
      [vm_compute; reflexivity|].
    exact Hrun.
  - destruct (embed_images_placeholder "<html>" "</html>"
                (Double.env 65 "" "") "![y](frames/g.jpg)" "/d"
                Double.one_frame [] "y" "g.jpg" [] "" "")
      as (_ & _ & Hnone); [vm_compute; reflexivity..|].
    destruct (Hnone FileNotFoundError) as (Hrun & _);
      [vm_compute; reflexivity|].
    exact Hrun.
Defined.

(** ** Article renderer: the path looked up *)

Lemma existsb_slash_occurs s :
  existsb (Ascii.eqb "/") (list_ascii_of_string s) = false <-> ~ occurs "/" s.
Proof.
  induction s as [|c s IH]; [simpl; tauto|].
  change (Ascii.eqb "/" c
          || existsb (Ascii.eqb "/") (list_ascii_of_string s) = false
          <-> ~ (c = "/"%char \/ occurs "/" s)).
  destruct (Ascii.eqb_spec "/" c) as [<-|Hc].
  - split; [done|]. tauto.
  - rewrite orb_false_l, IH. split; [intros H [?|?]; [done|tauto]|tauto].
Qed.

(** A name without a slash is its own base name. *)
Lemma basename_plain name : ~ occurs "/" name -> basename name = name.
Proof.
  destruct name as [|c name]; [done|]. simpl. intros H.
  destruct (Ascii.eqb_spec c "/") as [->|Hc]; [tauto|].
  assert (E : existsb (Ascii.eqb "/") (list_ascii_of_string name) = false)
    by (apply existsb_slash_occurs; tauto).
  by rewrite E.
Qed.

(** Directories in front of a name do not change its base name. *)
Lemma basename_dir dir name :
  ~ occurs "/" name -> basename (dir +:+ "/" +:+ name) = name.
Proof.
  intros Hname. induction dir as [|c dir IH].
  - change (basename (String "/" name) = name). simpl.
    by apply basename_plain.
  - rewrite string_app_cons. simpl.
    destruct (Ascii.eqb_spec c "/") as [->|Hc]; [done|].
    destruct (existsb _ _) eqn:E; [done|].
    apply existsb_slash_occurs in E. destruct E.
    apply occurs_app. right. simpl. by left.
Qed.

(** C10.  The callback looks up [frames_dir] joined with the base name of
    the referenced path and nothing else of that path: two references with
    the same base name look up the same file and get the same image, and
    directories between [frames/] and the name leave the base name as it
    is. *)
Theorem placeholder_resolution_basename frames_dir alt p1 p2 w :
  basename ("frames/" +:+ p1) = basename ("frames/" +:+ p2) ->
  let target := path_join frames_dir (basename ("frames/" +:+ p1)) in
  replace_image_with_base64 frames_dir alt p1 w
  = (w, match node_at w target with
        | inr (File data) => inr (data_uri_image alt data)
        | inr Dir => inl IsADirectoryError
        | inl _ => inr (group0 alt p1)
        end) /\
  replace_image_with_base64 frames_dir alt p2 w
  = (w, match node_at w target with
        | inr (File data) => inr (data_uri_image alt data)
        | inr Dir => inl IsADirectoryError
        | inl _ => inr (group0 alt p2)
        end) /\
  (forall dirs name, ~ occurs "/" name ->
     basename ("frames/" +:+ dirs +:+ "/" +:+ name) = name /\
     basename ("frames/" +:+ name) = name).
Proof.
  intros Hbase target. split; [|split].
  - by rewrite replace_image_run.
  - rewrite replace_image_run. unfold full_path, target. by rewrite Hbase.
  - intros dirs name Hname. split.
    + rewrite <- string_app_assoc. by apply basename_dir.
    + by apply (basename_dir "frames").
Qed.

Lemma placeholder_resolution_basename_witness :
  replace_image_with_base64 "/d" "x" "f.jpg" Double.one_frame
  = (Double.one_frame, inr "![x](data:image/jpeg;base64,TWFu)") /\
  replace_image_with_base64 "/d" "x" "2024/clips/f.jpg" Double.one_frame
  = (Double.one_frame, inr "![x](data:image/jpeg;base64,TWFu)").
Proof.
  destruct (placeholder_resolution_basename "/d" "x" "f.jpg"
              "2024/clips/f.jpg" Double.one_frame) as (H1 & H2 & _);
    [vm_compute; reflexivity|].
  split; [rewrite H1|rewrite H2]; vm_compute; reflexivity.
Defined.

(** ** Article renderer: the live display *)

Lemma path_exists_run path w :
  path_exists path w
  = (w, inr match node_at w path with inr _ => true | inl _ => false end).
Proof. reflexivity. Qed.

(** C4.  For the article [A ![x](frames/f.jpg) B] the front end is given
    the two texts [A ] and [ B] and nothing else when nothing is found at
    the path of the frame, and the text [A ], the image [f.jpg] with the
    caption [x] and the text [ B], in this order, when the frame is
    there. *)
Theorem display_article_example frames_dir w :
  let article := "A ![x](frames/f.jpg) B" in
  let frame_path := path_join frames_dir "f.jpg" in
  let run := display_article article frames_dir w in
  (forall e, node_at w frame_path = inl e ->
   run = (mkWorld (fs w) (cmds w)
            (ui w ++ [Markdown "A "; Markdown " B"]) (cwd w), inr tt)) /\
  (forall n, node_at w frame_path = inr n ->
   run = (mkWorld (fs w) (cmds w)
            (ui w ++ [Markdown "A "; Image frame_path "x"; Markdown " B"])
            (cwd w),
          inr tt)).
Proof.
  intros article frame_path run.
  assert (Hrun : run =
    let w1 := mkWorld (fs w) (cmds w) (ui w ++ [Markdown "A "]) (cwd w) in
    let w2 := if match node_at w frame_path with
                 | inr _ => true
                 | inl _ => false
                 end
              then mkWorld (fs w) (cmds w) (ui w1 ++ [Image frame_path "x"])
                     (cwd w)
              else w1 in
    (mkWorld (fs w) (cmds w) (ui w2 ++ [Markdown " B"]) (cwd w), inr tt)).
  { subst run. unfold display_article.
    change (re_split article) with ["A "; "![x](frames/f.jpg)"; " B"].
    cbn [display_parts].
    change (match_image "A ") with (@None (string * string * string)).
    change (match_image " B") with (@None (string * string * string)).
    change (match_image "![x](frames/f.jpg)") with (Some ("x", "f.jpg", "")).
    change (strip "A ") with "A". change (strip " B") with "B".
    cbn [String.eqb Ascii.eqb Bool.eqb negb].
    rewrite bind_run. cbn [show]. rewrite bind_run, bind_run.
    rewrite path_exists_run. unfold node_at. cbn [fs cmds ui cwd].
    fold frame_path.
    destruct (Disk.stat (fs w) (cwd w) frame_path); reflexivity. }
  rewrite Hrun. split.
  - intros e ->. cbn. by rewrite <- List.app_assoc.
  - intros n ->. cbn. by rewrite <- !List.app_assoc.
Qed.

Lemma display_article_example_witness :
  ui (fst (display_article "A ![x](frames/f.jpg) B" "/d" Double.one_frame))
  = [Markdown "A "; Image "/d/f.jpg" "x"; Markdown " B"] /\
  ui (fst (display_article "A ![x](frames/f.jpg) B" "/d" Double.empty_world))
  = [Markdown "A "; Markdown " B"].
Proof.
  destruct (display_article_example "/d" Double.one_frame) as [_ Hthere].
  destruct (display_article_example "/d" Double.empty_world) as [Hnone _].
  split.
  - rewrite (Hthere (File (list_byte_of_string "Man"))); [reflexivity|].
    vm_compute. reflexivity.
  - rewrite (Hnone FileNotFoundError); [reflexivity|]. vm_compute.
    reflexivity.
Defined.

(** ** The conversion handler *)

(** The [except] clause reports and does not raise. *)
Lemma try_except_report (body : M unit) w :
  snd (try_except body report w) = inr tt.
Proof.
  unfold try_except. destruct (body w) as [w1 [e|[]]]; reflexivity.
Qed.

Lemma prepare_tmp_dir env req w w1 tmp_dir tmp_video output_dir :
  prepare env req w = (w1, inr (tmp_dir, tmp_video, output_dir)) ->
  fresh_dir env (fs w) = inr tmp_dir.
Proof.
  unfold prepare, mkdtemp. intros H.
  apply bind_inr in H as (w2 & d & Hmk & H).
  apply bind_inr in H as (w3 & [] & _ & H).
  apply bind_inr in H as (w4 & [] & _ & H).
  apply bind_inr in H as (w5 & [] & _ & H).
  injection H as _ <- _ _.
  apply bind_inr in Hmk as (w6 & f & Hf & Hmk).
  injection Hf as <- <-.
  apply bind_inr in Hmk as (w7 & d' & [_ Hd]%lift_inr & Hmk).
  apply bind_inr in Hmk as (w8 & [] & _ & Hmk).
  injection Hmk as _ <-. exact Hd.
Qed.

(** C8.  The upload is stored after the temporary directory is made and
    before the [try] statement is entered.  A video whose name is longer
    than a directory entry can be -- 274 bytes here -- makes [open] raise
    there: the error leaves the handler, nothing is reported through the
    page, no program is started, and the temporary directory stays on the
    disk. *)
Theorem convert_leaves_tmp_dir page_head page_tail :
  let env := Double.env 65 "" "" in
  let run := convert page_head page_tail env Faulty.long_request
               Double.tmp_world in
  String.length (upload_name Faulty.long_request) = 274%nat /\
  node_at Double.tmp_world "/tmp/tmpq" = inl FileNotFoundError /\
  snd run = inl OSError /\
  node_at (fst run) "/tmp/tmpq" = inr Dir /\
  ui (fst run) = [] /\
  cmds (fst run) = [].
Proof.
  intros env run.
  assert (Hrun : run = (mkWorld (<[["tmp"; "tmpq"] := Dir]>
                                   (fs Double.tmp_world)) [] [] [],
                        inl OSError)).
  { subst run. unfold convert. rewrite bind_run.
    assert (Hprep : prepare env Faulty.long_request Double.tmp_world
                    = (mkWorld (<[["tmp"; "tmpq"] := Dir]>
                                  (fs Double.tmp_world)) [] [] [],
                       inl OSError))
      by (vm_compute; reflexivity).
    by rewrite Hprep. }
  rewrite Hrun. repeat split; vm_compute; reflexivity.
Qed.

(** ** What the [finally] clause achieves *)

Lemma walk_blank f names cur place :
  Disk.trim names = [] -> Disk.walk f cur names = inr place -> place = cur.
Proof.
  revert cur. induction names as [|n names IH]; intros cur Ht Hw.
  - by injection Hw.
  - cbn [Disk.trim] in Ht. destruct (Disk.trim names) eqn:E; [|done].
    destruct (String.eqb_spec n "") as [->|]; [|done].
    cbn [Disk.walk] in Hw. unfold Disk.step in Hw.
    destruct (Disk.node_of f cur) as [[|]|]; try done.
    cbn in Hw. by apply IH.
Qed.

(** A path that ends with a name leads to a place other than the root. *)
Lemma walk_proper_end f names cur place c :
  Disk.walk f cur names = inr place ->
  last (Disk.trim names) = Some c ->
  (String.eqb c "" || String.eqb c "." || String.eqb c "..") = false ->
  place <> [].
Proof.
  revert cur. induction names as [|n names IH]; intros cur Hw Hl Hc; [done|].
  cbn [Disk.walk] in Hw.
  destruct (Disk.step f cur n) as [e|cur'] eqn:Hs; [done|].
  cbn [Disk.trim] in Hl. destruct (Disk.trim names) as [|r rs] eqn:E.
  - destruct (String.eqb n ""); [done|]. injection Hl as ->.
    apply (walk_blank f names cur' place E) in Hw. subst place.
    unfold Disk.step in Hs.
    destruct (Disk.node_of f cur) as [[|]|]; try done.
    apply orb_false_iff in Hc as [Hc Hc3].
    apply orb_false_iff in Hc as [Hc1 Hc2].
    rewrite Hc1, Hc2, Hc3 in Hs. cbn [orb] in Hs.
    destruct (Disk.name_max <? String.length c)%nat; [done|].
    injection Hs as <-.
    by destruct cur.
  - apply (IH cur'); [done|exact Hl|done].
Qed.

(** Taking nodes away can only make a walk fail earlier. *)
Lemma walk_removed f f' names cur :
  (forall q, Disk.node_of f' q = Disk.node_of f q \/ Disk.node_of f' q = None) ->
  Disk.walk f' cur names = Disk.walk f cur names \/
  Disk.walk f' cur names = inl FileNotFoundError.
Proof.
  intros Hsub. revert cur. induction names as [|n names IH]; intros cur;
    [by left|].
  cbn [Disk.walk]. unfold Disk.step.
  destruct (Hsub cur) as [->| ->]; [|by right].
  destruct (Disk.node_of f cur) as [[|]|]; [by left| |by left].
  destruct (_ || _); [apply IH|].
  destruct (String.eqb n ".."); [apply IH|].
  destruct (_ <? _)%nat; [by left|apply IH].
Qed.

(** After [rmtree] no directory is found at a path that ends with a
    name. *)
Lemma rmtree_gone f cwd p :
  Disk.proper_end p = true ->
  Disk.stat (Disk.rmtree f cwd p) cwd p <> inr Dir.
Proof.
  intros Hend. unfold Disk.rmtree.
  destruct (Disk.locate f cwd p (Disk.components p)) as [e|place] eqn:Hloc.
  { unfold Disk.stat. by rewrite Hloc. }
  destruct (Disk.node_of f place) as [[data|]|] eqn:Hnode;
    [unfold Disk.stat; by rewrite Hloc, Hnode| |
     unfold Disk.stat; by rewrite Hloc, Hnode].
  set (f' := filter _ f).
  assert (Hsub : forall q, Disk.node_of f' q = Disk.node_of f q
                           \/ Disk.node_of f' q = None).
  { intros [|n q]; [by left|]. cbn [Disk.node_of].
    destruct (f' !! (n :: q)) as [x|] eqn:E; [|by right].
    left. by apply map_lookup_filter_Some in E as [-> _]. }
  unfold Disk.proper_end in Hend.
  destruct (last (Disk.trim (Disk.components p))) as [c|] eqn:Hlast; [|done].
  apply negb_true_iff in Hend.
  unfold Disk.stat, Disk.locate in *.
  destruct (Disk.has_nul p); [done|].
  destruct (String.eqb p ""); [done|].
  destruct (walk_removed f f' (Disk.components p)
              (if startswith p "/" then [] else cwd) Hsub) as [Hw|Hw];
    rewrite Hw; [|done].
  rewrite Hloc.
  assert (Hplace : place <> []) by by eapply walk_proper_end.
  destruct place as [|n place]; [done|]. cbn [Disk.node_of].
  assert (Hgone : f' !! (n :: place) = None); [|by rewrite Hgone].
  apply map_lookup_filter_None. right. intros x _. cbn [fst].
  assert (Hin : forall q, Disk.inside q q = true).
  { intros q. induction q as [|a q IHq]; [done|]. cbn.
    by rewrite String.eqb_refl. }
  rewrite Hin. cbn. unfold Disk.proper_end. rewrite Hlast, Hend. done.
Qed.

(** A [finally] clause that removes a directory whose path ends with a
    name leaves no directory there, whatever the body did, and hands on
    the outcome of the body. *)
Lemma try_finally_rmtree {A} (body : M A) d w :
  Disk.proper_end d = true ->
  exists w', try_finally body (rmtree d) w = (w', snd (body w)) /\
             node_at w' d <> inr Dir.
Proof.
  intros Hd. unfold try_finally. destruct (body w) as [w1 r].
  eexists. split; [reflexivity|]. by apply rmtree_gone.
Qed.

(** X11.  Once the temporary directory is made and the upload stored in
    it, a press of the convert button returns without raising, whether the
    pipeline ran to its end or one of its steps raised, and the temporary
    directory is gone, whatever the programs started in between did to
    the disk.  The path of the directory ends with the name that
    [mkdtemp] chose. *)
Theorem convert_removes_tmp_dir page_head page_tail env req w
    w1 tmp_dir tmp_video output_dir :
  prepare env req w = (w1, inr (tmp_dir, tmp_video, output_dir)) ->
  Disk.proper_end tmp_dir = true ->
  let run := convert page_head page_tail env req w in
  fresh_dir env (fs w) = inr tmp_dir /\
  snd run = inr tt /\
  node_at (fst run) tmp_dir <> inr Dir.
Proof.
  intros Hprep Hend run. split; [by eapply prepare_tmp_dir|].
  subst run. unfold convert. rewrite bind_run, Hprep. unfold guarded.
  destruct (try_finally_rmtree
              (try_except (pipeline page_head page_tail env req tmp_video
                             output_dir) report) tmp_dir w1 Hend)
    as (w' & -> & Hgone).
  cbn [fst snd]. split; [apply try_except_report|done].
Qed.

Lemma convert_removes_tmp_dir_witness :
  let working := Double.env 11 "hello" "A ![x](frames/frame_0001_10s.jpg) B" in
  let run env := convert "<html>" "</html>" env Double.request
                   Double.tmp_world in
  (last (ui (fst (run Double.offline))) = Some (ExceptionBox ServiceError) /\
   node_at (fst (run Double.offline)) "/tmp/tmpq" <> inr Dir) /\
  (last (ui (fst (run working))) = Some (Metric "料金" "¥0") /\
   node_at (fst (run working)) "/tmp/tmpq" <> inr Dir).
Proof.
  intros working run.
  destruct (convert_removes_tmp_dir "<html>" "</html>" Double.offline
              Double.request Double.tmp_world
              (fst (prepare Double.offline Double.request Double.tmp_world))
              "/tmp/tmpq" "/tmp/tmpq/talk.mp4" "/tmp/tmpq/output")
    as (_ & _ & Hf); [vm_compute; reflexivity..|].
  destruct (convert_removes_tmp_dir "<html>" "</html>" working Double.request
              Double.tmp_world
              (fst (prepare working Double.request Double.tmp_world))
              "/tmp/tmpq" "/tmp/tmpq/talk.mp4" "/tmp/tmpq/output")
    as (_ & _ & Hw); [vm_compute; reflexivity..|].
  split; (split; [vm_compute; reflexivity|assumption]).
Defined.

(** * Further properties *)

(** ** Media extractor: order, bounds and number of the frames *)

(** The steps of a run of [extract_frames] that returns. *)
Lemma extract_frames_steps env video_path output_dir interval w w' frames :
  extract_frames env video_path output_dir interval w = (w', inr frames) ->
  exists w1 w2 d n tss,
    makedirs (path_join output_dir "frames") w = (w1, inr tt) /\
    get_video_duration env video_path w1 = (w2, inr d) /\
    int_of_float d = inr n /\
    timestamps n interval = inr tss /\
    extract_loop env video_path (path_join output_dir "frames") 0 tss w2
    = (w', inr frames).
Proof.
  unfold extract_frames. intros H.
  apply bind_inr in H as (w1 & [] & Hmk & H).
  apply bind_inr in H as (w2 & d & Hd & H).
  apply bind_inr in H as (w3 & n & [-> Hn]%lift_inr & H).
  apply bind_inr in H as (w4 & tss & [-> Hts]%lift_inr & H).
  by exists w1, w2, d, n, tss.
Qed.

Lemma timestamp_imap frames_dir tss :
  timestamp <$> imap (frame_at frames_dir) tss = tss.
Proof.
  apply list_eq. intros k. rewrite list_lookup_fmap, list_lookup_imap.
  by destruct (tss !! k).
Qed.

(** The members of [range(0, n, step)] for a positive step. *)
Lemma range_members n step ts x :
  1 <= step -> range 0 n step = inr ts -> In x ts ->
  0 <= x <= n - 1 /\ x mod step = 0.
Proof.
  intros Hs. unfold range. destruct (Z.eqb_spec step 0); [lia|].
  intros [= <-] Hin. apply in_map_iff in Hin as (k & <- & Hk).
  apply in_seq in Hk. unfold range_len in Hk.
  destruct (Z.ltb_spec 0 step); [|lia].
  destruct (Z.ltb_spec 0 n); simpl in Hk.
  - assert (Z.of_nat k <= (n - 1 - 0) / step) by lia.
    assert (step * ((n - 1 - 0) / step) <= n - 1 - 0)
      by (apply Z.mul_div_le; lia).
    split; [nia|]. rewrite Z.add_0_l. apply Z.mod_mul. lia.
  - destruct (Z.ltb_spec step 0); simpl in Hk; lia.
Qed.

Lemma range_increasing n step ts i j ti tj :
  1 <= step -> range 0 n step = inr ts ->
  ts !! i = Some ti -> ts !! j = Some tj -> (i <= j)%nat -> ti <= tj.
Proof.
  intros Hs. unfold range. destruct (Z.eqb_spec step 0); [lia|].
  intros [= <-] Hi Hj Hij.
  rewrite list_lookup_fmap in Hi, Hj.
  destruct (seq 0 _ !! i) as [a|] eqn:Ea; [|done].
  destruct (seq 0 _ !! j) as [b|] eqn:Eb; [|done].
  apply lookup_seq in Ea as [-> _]. apply lookup_seq in Eb as [-> _].
  simpl in Hi, Hj. injection Hi as <-. injection Hj as <-. nia.
Qed.

(** X1.  With a positive interval the timestamps never decrease along the
    returned records: the records are in chronological order. *)
Theorem extract_frames_chronological env video_path output_dir interval
    w w' frames :
  1 <= interval ->
  extract_frames env video_path output_dir interval w = (w', inr frames) ->
  forall j k rj rk,
    frames !! j = Some rj -> frames !! k = Some rk -> (j <= k)%nat ->
    timestamp rj <= timestamp rk.
Proof.
  intros Hs H j k rj rk Hj Hk Hjk.
  apply extract_frames_inr in H as (n & tss & Hts & ->).
  assert (Htj : tss !! j = Some (timestamp rj)).
  { rewrite <- (timestamp_imap (path_join output_dir "frames") tss).
    by rewrite list_lookup_fmap, Hj. }
  assert (Htk : tss !! k = Some (timestamp rk)).
  { rewrite <- (timestamp_imap (path_join output_dir "frames") tss).
    by rewrite list_lookup_fmap, Hk. }
  destruct (range_ok 0 n interval) as [ts Hr]; [lia|].
  rewrite (timestamps_append n interval ts Hr) in Hts. injection Hts as <-.
  destruct (decide (k < List.length ts)%nat) as [Hlt|Hge].
  - rewrite lookup_app_l in Htj, Htk by lia.
    by eapply range_increasing.
  - rewrite (lookup_app_r ts) in Htk by lia.
    destruct (k - List.length ts)%nat as [|m] eqn:Ek; [|by destruct m].
    injection Htk as <-.
    destruct (decide (j < List.length ts)%nat) as [Hjlt|Hjge].
    + rewrite lookup_app_l in Htj by lia.
      apply list_elem_of_lookup_2, list_elem_of_In in Htj.
      by apply (range_members n interval ts) in Htj as [[_ ?] _].
    + rewrite (lookup_app_r ts) in Htj by lia.
      destruct (j - List.length ts)%nat as [|m] eqn:Ej; [|by destruct m].
      injection Htj as <-. lia.
Qed.

Lemma extract_frames_chronological_witness :
  exists frames,
    snd (extract_frames (Double.env 65 "" "") "v.mp4" "/o" 10
           Double.empty_world) = inr frames /\
    forall j k rj rk,
      frames !! j = Some rj -> frames !! k = Some rk -> (j <= k)%nat ->
      timestamp rj <= timestamp rk.
Proof.
  eexists. split; [vm_compute; reflexivity|].
  apply (extract_frames_chronological (Double.env 65 "" "") "v.mp4" "/o" 10
           Double.empty_world
           (fst (extract_frames (Double.env 65 "" "") "v.mp4" "/o" 10
                   Double.empty_world))); [lia|].
  vm_compute. reflexivity.
Defined.

Lemma range_length n step ts :
  1 <= n -> 1 <= step -> range 0 n step = inr ts ->
  Z.of_nat (List.length ts) = (n - 1) / step + 1.
Proof.
  intros Hn Hs. unfold range. destruct (Z.eqb_spec step 0); [lia|].
  intros [= <-]. rewrite length_map, length_seq. unfold range_len.
  destruct (Z.ltb_spec 0 step), (Z.ltb_spec 0 n); try lia. simpl.
  replace (n - 1 - 0) with (n - 1) by lia.
  assert (0 <= (n - 1) / step) by (apply Z.div_pos; lia). lia.
Qed.

(** The duration a returning run was given is the one the probe
    reports. *)
Lemma extract_frames_probed env video_path output_dir interval w w' frames
    d n :
  probe_reports env video_path d ->
  int_of_float d = inr n ->
  extract_frames env video_path output_dir interval w = (w', inr frames) ->
  exists tss,
    timestamps n interval = inr tss /\
    frames = imap (frame_at (path_join output_dir "frames")) tss.
Proof.
  intros Hprobe Hn H.
  apply extract_frames_steps in H as (w1 & w2 & d' & n' & tss & _ & Hd & Hn'
                                       & Hts & Hloop).
  specialize (Hprobe w1). rewrite Hd in Hprobe. simpl in Hprobe.
  injection Hprobe as ->. rewrite Hn in Hn'. injection Hn' as <-.
  exists tss. split; [done|]. by apply extract_loop_inr in Hloop.
Qed.

(** X2.  For a video of at least one second and a positive interval, the
    number of records is [(int(duration) - 1) // interval + 2]: one per
    step of the range and one more for the last second. *)
Theorem extract_frames_count env video_path output_dir interval w w' frames
    d n :
  probe_reports env video_path d ->
  int_of_float d = inr n ->
  1 <= n -> 1 <= interval ->
  extract_frames env video_path output_dir interval w = (w', inr frames) ->
  Z.of_nat (List.length frames) = (n - 1) / interval + 2.
Proof.
  intros Hprobe Hd Hn Hs H.
  destruct (extract_frames_probed _ _ _ _ _ _ _ _ _ Hprobe Hd H)
    as (tss & Hts & ->).
  destruct (range_ok 0 n interval) as [ts Hr]; [lia|].
  rewrite (timestamps_append n interval ts Hr) in Hts. injection Hts as <-.
  rewrite length_imap, length_app. simpl.
  pose proof (range_length n interval ts Hn Hs Hr). lia.
Qed.

Lemma extract_frames_count_witness :
  exists frames,
    snd (extract_frames (Double.env 65 "" "") "v.mp4" "/o" 10
           Double.empty_world) = inr frames /\
    Z.of_nat (List.length frames) = (65 - 1) / 10 + 2.
Proof.
  eexists. split; [vm_compute; reflexivity|].
  apply (extract_frames_count (Double.env 65 "" "") "v.mp4" "/o" 10
           Double.empty_world
           (fst (extract_frames (Double.env 65 "" "") "v.mp4" "/o" 10
                   Double.empty_world)) _ (Finite 65) 65).
  - intros w. vm_compute. reflexivity.
  - reflexivity.
  - lia.
  - lia.
  - vm_compute. reflexivity.
Defined.

(** X3.  For a video of at least one second and a positive interval, every
    record is taken at a second of the video: its timestamp lies between 0
    and [int(duration) - 1], and it is a multiple of the interval or the
    last second. *)
Theorem extract_frames_within_video env video_path output_dir interval
    w w' frames d n :
  probe_reports env video_path d ->
  int_of_float d = inr n ->
  1 <= n -> 1 <= interval ->
  extract_frames env video_path output_dir interval w = (w', inr frames) ->
  forall r, In r frames ->
    0 <= timestamp r <= n - 1 /\
    (timestamp r mod interval = 0 \/ timestamp r = n - 1).
Proof.
  intros Hprobe Hd Hn Hs H r Hr.
  destruct (extract_frames_probed _ _ _ _ _ _ _ _ _ Hprobe Hd H)
    as (tss & Hts & ->).
  assert (Hin : In (timestamp r) tss).
  { rewrite <- (timestamp_imap (path_join output_dir "frames") tss).
    apply list_elem_of_In, list_elem_of_fmap. exists r.
    split; [done|]. by apply list_elem_of_In. }
  destruct (range_ok 0 n interval) as [ts Hrange]; [lia|].
  rewrite (timestamps_append n interval ts Hrange) in Hts.
  injection Hts as <-.
  apply in_app_or in Hin as [Hin|[<-|[]]].
  - apply (range_members n interval ts) in Hin as [? ?]; [|done..]. tauto.
  - split; [lia|]. by right.
Qed.

Lemma extract_frames_within_video_witness :
  exists frames,
    snd (extract_frames (Double.env 65 "" "") "v.mp4" "/o" 10
           Double.empty_world) = inr frames /\
    forall r, In r frames ->
      0 <= timestamp r <= 65 - 1 /\
      (timestamp r mod 10 = 0 \/ timestamp r = 65 - 1).
Proof.
  eexists. split; [vm_compute; reflexivity|].
  apply (extract_frames_within_video (Double.env 65 "" "") "v.mp4" "/o" 10
           Double.empty_world
           (fst (extract_frames (Double.env 65 "" "") "v.mp4" "/o" 10
                   Double.empty_world)) _ (Finite 65) 65).
  - intros w. vm_compute. reflexivity.
  - reflexivity.
  - lia.
  - lia.
  - vm_compute. reflexivity.
Defined.

(** ** Media extractor: the commands it starts *)

Lemma subprocess_run_cmds env argv check w :
  cmds (fst (subprocess_run env argv check w)) = cmds w ++ [argv].
Proof.
  unfold subprocess_run. destruct (spawn env argv (fs w)) as [c|]; [|done].
  by destruct (check && negb (returncode c =? 0)).
Qed.

Lemma makedirs_cmds dir w : cmds (fst (makedirs dir w)) = cmds w.
Proof.
  unfold makedirs. by destruct (Disk.makedirs _ _ _ _).
Qed.

Lemma get_video_duration_cmds env video_path w :
  cmds (fst (get_video_duration env video_path w))
  = cmds w ++ [ffprobe_argv video_path].
Proof.
  unfold get_video_duration. rewrite bind_run.
  pose proof (subprocess_run_cmds env (ffprobe_argv video_path) false w) as H.
  unfold ffprobe_argv in *.
  destruct (subprocess_run env _ false w) as [w1 [e|c]]; simpl in H; [done|].
  rewrite bind_run. unfold lift at 1.
  destruct (json_loads env (stdout c)) as [e|info]; [done|].
  rewrite bind_run. unfold lift at 1.
  destruct (getitem info "format") as [e|fmt]; [done|].
  rewrite bind_run. unfold lift at 1.
  by destruct (getitem fmt "duration") as [e|dur].
Qed.

Lemma extract_loop_cmds env video_path frames_dir tss : forall i w w' frames,
  extract_loop env video_path frames_dir i tss w = (w', inr frames) ->
  cmds w' = cmds w ++
    ((fun r => ffmpeg_frame_argv video_path (timestamp r) (path r))
       <$> frames).
Proof.
  induction tss as [|ts tss IH]; intros i w w' frames H.
  - injection H as <- <-. simpl. by rewrite List.app_nil_r.
  - simpl in H. apply bind_inr in H as (w1 & c & Hrun & H).
    apply bind_inr in H as (w2 & rest & Hrest & H).
    injection H as <- <-. apply IH in Hrest as ->.
    pose proof (subprocess_run_cmds env
      (ffmpeg_frame_argv video_path ts
         (path_join frames_dir (frame_filename i ts))) true w) as Hc.
    rewrite Hrun in Hc. simpl in Hc. rewrite Hc.
    by rewrite <- List.app_assoc.
Qed.

(** X4.  A run of [extract_frames] that returns has started the probe
    once and then the transcoder once per returned record, in the order of
    the records, each time with the timestamp of the record after [-ss] and
    the path of the record as the output file; it has started nothing
    else. *)
Theorem extract_frames_commands env video_path output_dir interval
    w w' frames :
  extract_frames env video_path output_dir interval w = (w', inr frames) ->
  cmds w' = cmds w ++ ffprobe_argv video_path ::
    ((fun r => ["ffmpeg"; "-i"; video_path; "-ss"; str (timestamp r);
                "-frames:v"; "1"; "-q:v"; "2"; "-y"; path r]) <$> frames).
Proof.
  intros H.
  apply extract_frames_steps in H as (w1 & w2 & d & n & tss & Hmk & Hd & _
                                       & _ & Hloop).
  apply extract_loop_cmds in Hloop. rewrite Hloop.
  pose proof (get_video_duration_cmds env video_path w1) as H2.
  rewrite Hd in H2. simpl in H2. rewrite H2.
  pose proof (makedirs_cmds (path_join output_dir "frames") w) as H1.
  rewrite Hmk in H1. simpl in H1. rewrite H1.
  by rewrite <- List.app_assoc.
Qed.

Lemma extract_frames_commands_witness :
  cmds (fst (extract_frames (Double.env 11 "" "") "v.mp4" "/o" 10
               Double.empty_world))
  = [ffprobe_argv "v.mp4";
     ["ffmpeg"; "-i"; "v.mp4"; "-ss"; "0"; "-frames:v"; "1"; "-q:v"; "2";
      "-y"; "/o/frames/frame_0000_0s.jpg"];
     ["ffmpeg"; "-i"; "v.mp4"; "-ss"; "10"; "-frames:v"; "1"; "-q:v"; "2";
      "-y"; "/o/frames/frame_0001_10s.jpg"];
     ["ffmpeg"; "-i"; "v.mp4"; "-ss"; "10"; "-frames:v"; "1"; "-q:v"; "2";
      "-y"; "/o/frames/frame_0002_10s.jpg"]].
Proof.
  rewrite (extract_frames_commands (Double.env 11 "" "") "v.mp4" "/o" 10
             Double.empty_world
             (fst (extract_frames (Double.env 11 "" "") "v.mp4" "/o" 10
                     Double.empty_world))
             [frame_at "/o/frames" 0 0; frame_at "/o/frames" 1 10;
              frame_at "/o/frames" 2 10]).
  - vm_compute. reflexivity.
  - vm_compute. reflexivity.
Defined.

(** ** Media extractor: runs that raise *)

(** The run up to the frame loop, when the directory can be made and the
    probe answers. *)
Lemma extract_frames_probe_run env video_path output_dir interval w d n :
  snd (makedirs (path_join output_dir "frames") w) = inr tt ->
  probe_reports env video_path d ->
  int_of_float d = inr n ->
  exists w2,
    cmds w2 = cmds w ++ [ffprobe_argv video_path] /\
    extract_frames env video_path output_dir interval w
    = match timestamps n interval with
      | inl e => (w2, inl e)
      | inr tss =>
          extract_loop env video_path (path_join output_dir "frames") 0 tss w2
      end.
Proof.
  intros Hmk Hprobe Hn. unfold extract_frames. rewrite bind_run.
  pose proof (makedirs_cmds (path_join output_dir "frames") w) as Hc1.
  destruct (makedirs (path_join output_dir "frames") w) as [w1 r1].
  simpl in Hmk, Hc1. subst r1.
  rewrite bind_run. specialize (Hprobe w1).
  pose proof (get_video_duration_cmds env video_path w1) as Hc2.
  destruct (get_video_duration env video_path w1) as [w2 r2].
  simpl in Hprobe, Hc2. subst r2. exists w2. split; [by rewrite Hc2, Hc1|].
  rewrite bind_run. unfold lift at 1. rewrite Hn.
  rewrite bind_run. unfold lift at 1.
  by destruct (timestamps n interval).
Qed.

(** X5.  With the interval 0, [extract_frames] raises [ValueError] after
    the probe has answered: no frame is asked of the transcoder. *)
Theorem extract_frames_zero_interval env video_path output_dir w d n :
  snd (makedirs (path_join output_dir "frames") w) = inr tt ->
  probe_reports env video_path d ->
  int_of_float d = inr n ->
  let run := extract_frames env video_path output_dir 0 w in
  snd run = inl ValueError /\
  cmds (fst run) = cmds w ++ [ffprobe_argv video_path].
Proof.
  intros Hmk Hprobe Hn run.
  destruct (extract_frames_probe_run env video_path output_dir 0 w d n)
    as (w2 & Hc & Hrun); [done..|].
  subst run. rewrite Hrun. by split.
Qed.

Lemma extract_frames_zero_interval_witness :
  let run := extract_frames (Double.env 65 "" "") "v.mp4" "/o" 0
               Double.empty_world in
  snd run = inl ValueError /\ cmds (fst run) = [ffprobe_argv "v.mp4"].
Proof.
  apply (extract_frames_zero_interval (Double.env 65 "" "") "v.mp4" "/o"
           Double.empty_world (Finite 65) 65).
  - vm_compute. reflexivity.
  - intros w. vm_compute. reflexivity.
  - reflexivity.
Defined.

(** The first timestamp of a video of at least one second is 0. *)
Lemma timestamps_first n step :
  1 <= n -> 1 <= step -> exists rest, timestamps n step = inr (0 :: rest).
Proof.
  intros Hn Hs. destruct (range_ok 0 n step) as [ts Hr]; [lia|].
  rewrite (timestamps_append n step ts Hr).
  unfold range in Hr. destruct (Z.eqb_spec step 0); [lia|].
  injection Hr as <-. unfold range_len.
  destruct (Z.ltb_spec 0 step), (Z.ltb_spec 0 n); try lia. simpl.
  assert (0 <= (n - 1 - 0) / step) by (apply Z.div_pos; lia).
  destruct (Z.to_nat (1 + (n - 1 - 0) / step)) as [|m] eqn:E; [lia|].
  simpl. eauto.
Qed.

(** X6.  When the transcoder exits with a non-zero status, [extract_frames]
    raises [CalledProcessError] at the first frame and asks for no other
    frame: after the probe, the command for second 0 is the only one
    started. *)
Theorem extract_frames_first_failure env video_path output_dir interval
    w d n :
  snd (makedirs (path_join output_dir "frames") w) = inr tt ->
  probe_reports env video_path d ->
  int_of_float d = inr n ->
  1 <= n -> 1 <= interval ->
  (forall argv f, exists c,
     spawn env ("ffmpeg" :: argv) f = Some c /\ returncode c <> 0) ->
  let run := extract_frames env video_path output_dir interval w in
  snd run = inl CalledProcessError /\
  cmds (fst run)
  = cmds w ++
    [ffprobe_argv video_path;
     ["ffmpeg"; "-i"; video_path; "-ss"; "0"; "-frames:v"; "1"; "-q:v"; "2";
      "-y"; path_join (path_join output_dir "frames") "frame_0000_0s.jpg"]].
Proof.
  intros Hmk Hprobe Hd Hn Hs Hrej run.
  destruct (extract_frames_probe_run env video_path output_dir interval w d n)
    as (w2 & Hc & Hrun); [done..|].
  destruct (timestamps_first n interval Hn Hs) as [rest Hts].
  subst run. rewrite Hrun, Hts. simpl extract_loop. rewrite bind_run.
  pose proof (subprocess_run_cmds env
    (ffmpeg_frame_argv video_path 0
       (path_join (path_join output_dir "frames") (frame_filename 0 0)))
    true w2) as Hcmd.
  unfold subprocess_run in *. unfold ffmpeg_frame_argv in *.
  destruct (Hrej ["-i"; video_path; "-ss"; str 0; "-frames:v"; "1"; "-q:v";
                  "2"; "-y";
                  path_join (path_join output_dir "frames")
                    (frame_filename 0 0)] (fs w2)) as (c & Hc1 & Hrc).
  rewrite Hc1 in *. apply Z.eqb_neq in Hrc. rewrite Hrc in *.
  simpl in *. split; [done|]. rewrite Hc, <- List.app_assoc. reflexivity.
Qed.

Lemma extract_frames_first_failure_witness :
  let run := extract_frames (Faulty.rejecting 65) "v.mp4" "/o" 10
               Double.empty_world in
  snd run = inl CalledProcessError /\
  cmds (fst run)
  = [ffprobe_argv "v.mp4";
     ["ffmpeg"; "-i"; "v.mp4"; "-ss"; "0"; "-frames:v"; "1"; "-q:v"; "2";
      "-y"; "/o/frames/frame_0000_0s.jpg"]].
Proof.
  apply (extract_frames_first_failure (Faulty.rejecting 65) "v.mp4" "/o" 10
           Double.empty_world (Finite 65) 65).
  - vm_compute. reflexivity.
  - intros w. vm_compute. reflexivity.
  - reflexivity.
  - lia.
  - lia.
  - intros argv f. eexists. split; [reflexivity|]. simpl. lia.
Defined.

(** ** From the extractor to the renderers *)

Lemma uint_chars d c :
  occurs c (NilEmpty.string_of_uint d) -> occurs c "0123456789".
Proof.
  induction d; simpl; try tauto; intros [<-|H]; simpl; tauto.
Qed.

Lemma nat_chars i c :
  occurs c (NilZero.string_of_uint (Nat.to_uint i)) ->
  occurs c "0123456789".
Proof.
  unfold NilZero.string_of_uint.
  destruct (Nat.to_uint i) as [|u|u|u|u|u|u|u|u|u|u];
    [simpl; tauto|intros H; cbv iota in H..].
  all: exact (uint_chars _ _ H).
Qed.

Lemma zeros_chars n c : occurs c (zeros n) -> c = "0"%char.
Proof. induction n as [|n IH]; simpl; [tauto|]. intros [<-|H]; auto. Qed.

Lemma str_chars z c : occurs c (str z) -> occurs c "-0123456789".
Proof.
  unfold str, NilZero.string_of_int.
  assert (Hu : forall d, occurs c (NilZero.string_of_uint d) ->
                         occurs c "-0123456789").
  { intros d H. right. unfold NilZero.string_of_uint in H.
    destruct d; [simpl in H; simpl; tauto|cbv iota in H..].
    all: exact (uint_chars _ _ H). }
  destruct (Z.to_int z) as [d|d]; [apply Hu|].
  intros [<-|H]; [by left|by apply (Hu d)].
Qed.

(** The characters a frame name is made of. *)
Lemma frame_filename_chars i ts c :
  occurs c (frame_filename i ts) -> occurs c "frame_-0123456789s.jpg".
Proof.
  unfold frame_filename, fmt_04d. rewrite !occurs_app.
  intros [H|[[H|H]|[H|[H|H]]]].
  - revert H. simpl. tauto.
  - apply zeros_chars in H as ->. simpl. tauto.
  - apply nat_chars in H. revert H. simpl. tauto.
  - revert H. simpl. tauto.
  - apply str_chars in H. revert H. simpl. tauto.
  - revert H. simpl. tauto.
Qed.

Lemma frame_filename_plain i ts c :
  ~ occurs c "frame_-0123456789s.jpg" -> ~ occurs c (frame_filename i ts).
Proof. intros Hc H. apply Hc. by apply (frame_filename_chars i ts). Qed.

(** X7.  A placeholder written with the file name of a returned record, as
    the prompt of [generate_article] asks for, is recognised by the image
    pattern, and both renderers look it up at the path where
    [extract_frames] had the transcoder write that frame. *)
Theorem frame_placeholder_resolves env video_path output_dir interval
    w w' frames r alt rest :
  extract_frames env video_path output_dir interval w = (w', inr frames) ->
  In r frames ->
  ~ occurs "]" alt ->
  let frames_dir := path_join output_dir "frames" in
  match_image (("![" +:+ alt +:+ "](frames/" +:+ filename r +:+ ")") +:+ rest)
  = Some (alt, filename r, rest) /\
  full_path frames_dir ("frames/" +:+ filename r) = path r /\
  path_join frames_dir (filename r) = path r.
Proof.
  intros H Hr Halt frames_dir.
  apply extract_frames_inr in H as (n & tss & _ & ->).
  apply list_elem_of_In, list_elem_of_lookup in Hr as [k Hk].
  rewrite list_lookup_imap in Hk.
  destruct (tss !! k) as [ts|]; [|done]. injection Hk as <-.
  simpl filename. simpl path. fold frames_dir.
  split; [|split].
  - apply match_image_spec. split; [done|]. split; [done|]. split.
    + apply frame_filename_plain. absent.
    + unfold frame_filename. by intros [=].
  - unfold full_path. f_equal. apply (basename_dir "frames").
    apply frame_filename_plain. absent.
  - reflexivity.
Qed.

Lemma frame_placeholder_resolves_witness :
  let r := frame_at "/o/frames" 1 10 in
  match_image "![x](frames/frame_0001_10s.jpg) B"
  = Some ("x", "frame_0001_10s.jpg", " B") /\
  full_path "/o/frames" "frames/frame_0001_10s.jpg" = path r /\
  path_join "/o/frames" "frame_0001_10s.jpg" = path r.
Proof.
  apply (frame_placeholder_resolves (Double.env 11 "" "") "v.mp4" "/o" 10
           Double.empty_world
           (fst (extract_frames (Double.env 11 "" "") "v.mp4" "/o" 10
                   Double.empty_world))
           [frame_at "/o/frames" 0 0; frame_at "/o/frames" 1 10;
            frame_at "/o/frames" 2 10]
           (frame_at "/o/frames" 1 10) "x" " B").
  - vm_compute. reflexivity.
  - right. by left.
  - absent.
Defined.

(** ** Lines and the fence token *)

Lemma prefix_empty s : String.prefix "" s = true.
Proof. by destruct s. Qed.

Lemma startswith_fence s : startswith (fence +:+ s) fence = true.
Proof. unfold startswith, fence. simpl. apply prefix_empty. Qed.

Lemma split_lines_app x y :
  split_lines (x +:+ String lf y) = split_lines x ++ split_lines y.
Proof.
  induction x as [|c x IH]; [reflexivity|].
  rewrite string_app_cons. simpl. rewrite IH.
  destruct (Ascii.eqb c lf); [done|].
  destruct (split_lines x) as [|l ls] eqn:E; [|done].
  by destruct (split_lines_nonempty x).
Qed.

(** ** Transcription adapter: what the fence removal keeps and loses *)

Lemma strip_fenced s : strip (fence +:+ s +:+ fence) = fence +:+ s +:+ fence.
Proof.
  unfold strip.
  assert (Hr : rstrip (fence +:+ s +:+ fence) = fence +:+ s +:+ fence).
  { change (fence +:+ s +:+ fence)
      with ("```" +:+ s +:+ ("``" +:+ String "`" "")).
    rewrite <- !string_app_assoc. by rewrite rstrip_solid. }
  rewrite Hr. by apply lstrip_stop.
Qed.

Lemma is_fence_line_opening tag : is_fence_line (fence +:+ tag) = true.
Proof. exact (is_fence_line_fence [] tag eq_refl). Qed.

Lemma filter_kept (ls : list string) :
  (forall l, In l ls -> is_fence_line l = false) ->
  filter (fun l => negb (is_fence_line l)) ls = ls.
Proof.
  induction ls as [|l ls IH]; intros H; [done|].
  rewrite filter_cons_True.
  - f_equal. apply IH. intros x Hx. apply H. by right.
  - rewrite (H l) by (by left). done.
Qed.

Lemma fenced_shape tag body :
  fence +:+ tag +:+ String lf (body +:+ String lf fence)
  = fence +:+ (tag +:+ String lf (body +:+ String lf "")) +:+ fence.
Proof.
  f_equal. rewrite string_app_assoc, string_app_cons. do 2 f_equal.
  by rewrite string_app_assoc.
Qed.

(** X8.  An answer that consists of an opening fence line (the fence
    token and a language tag), a body none of whose lines starts with the
    fence token, and a closing fence line is unwrapped: the decoder is
    given exactly the body. *)
Theorem clean_response_unwraps tag body :
  ~ occurs lf tag ->
  (forall l, In l (split_lines body) -> is_fence_line l = false) ->
  clean_response (fence +:+ tag +:+ String lf (body +:+ String lf fence))
  = body.
Proof.
  intros Htag Hbody. unfold clean_response.
  rewrite fenced_shape, strip_fenced, startswith_fence, <- fenced_shape.
  assert (Hlines :
    split_lines (fence +:+ tag +:+ String lf (body +:+ String lf fence))
    = (fence +:+ tag) :: split_lines body ++ [fence]).
  { rewrite <- string_app_assoc. rewrite split_lines_app_lf.
    - f_equal. by rewrite split_lines_app.
    - rewrite occurs_app. intros [H|H]; [revert H; absent|done]. }
  rewrite Hlines.
  rewrite filter_cons_False
    by (rewrite is_fence_line_opening; simpl; tauto).
  rewrite filter_app, (filter_kept _ Hbody).
  rewrite filter_cons_False by (simpl; tauto).
  rewrite filter_nil, List.app_nil_r. apply join_split_lines.
Qed.

Lemma clean_response_unwraps_witness :
  clean_response ("```json" +:+ String lf ("{1}" +:+ String lf "```"))
  = "{1}".
Proof.
  apply (clean_response_unwraps "json" "{1}").
  - absent.
  - intros l [<-|[]]. reflexivity.
Defined.

(** X9.  An answer whose stripped text is one line that starts with the
    fence token is dropped whole: the decoder is given the empty text, also
    when JSON follows the token on that line. *)
Theorem clean_response_one_line response :
  ~ occurs lf (strip response) ->
  startswith (strip response) fence = true ->
  clean_response response = "".
Proof.
  intros Hline Hfence. unfold clean_response. rewrite Hfence.
  rewrite (split_lines_line _ Hline).
  rewrite filter_cons_False; [done|].
  apply startswith_spec in Hfence as [r ->].
  rewrite is_fence_line_opening. simpl. tauto.
Qed.

Lemma clean_response_one_line_witness :
  clean_response "```{1}```" = "".
Proof.
  apply clean_response_one_line.
  - absent.
  - reflexivity.
Defined.

(** ** Article composer: transcripts of the wrong shape *)

(** X12.  A transcript without the key [segments] -- any JSON value that
    is no object, or an object that lacks the key -- makes
    [generate_article] raise before the service is called, and the world
    stays as it is; with the key set and the frame lines built, the error
    is the one of the subscript. *)
Theorem generate_article_needs_segments env transcription frames
    video_filename custom_prompt w e :
  getitem transcription "segments" = inl e ->
  let run := generate_article env transcription frames video_filename
               custom_prompt w in
  fst run = w /\
  (exists e', snd run = inl e') /\
  (forall k lines, api_key env = Some k ->
     traverse (frame_line env) frames = inr lines -> snd run = inl e).
Proof.
  intros He run.
  assert (Hrun : run = (w,
    match api_key env with
    | None => inl KeyError
    | Some _ =>
        match traverse (frame_line env) frames with
        | inl e1 => inl e1
        | inr _ => inl e
        end
    end)).
  { subst run. unfold generate_article.
    rewrite bind_run. unfold require_api_key.
    destruct (api_key env) as [k|]; [|done].
    unfold mret at 1, M_ret at 1. rewrite bind_run. unfold lift at 1.
    destruct (traverse (frame_line env) frames) as [e1|lines]; [done|].
    rewrite bind_run. unfold lift at 1. by rewrite He. }
  rewrite Hrun. split; [done|]. simpl. split.
  - destruct (api_key env); [|by eauto].
    destruct (traverse (frame_line env) frames); by eauto.
  - intros k lines -> ->. done.
Qed.

Lemma generate_article_needs_segments_witness :
  snd (generate_article (Double.env 65 "" "") (VList []) [] "talk" ""
         Double.empty_world) = inl TypeError.
Proof.
  destruct (generate_article_needs_segments (Double.env 65 "" "") (VList [])
              [] "talk" "" Double.empty_world TypeError) as (_ & _ & H);
    [reflexivity|].
  apply (H "key" []); reflexivity.
Defined.

(** X13.  The fallback transcript has the shape the composer reads: with
    the key set, the frame lines built and [int(0.0)] equal to 0,
    [generate_article] raises nothing of its own and gives the service the
    frame lines and one segment line, from 00:00 to 00:00, that carries
    the text. *)
Theorem generate_article_fallback env text frames video_filename
    custom_prompt w k lines :
  api_key env = Some k ->
  traverse (frame_line env) frames = inr lines ->
  to_int env (VFloat (Finite 0)) = inr 0 ->
  exists custom_section,
    generate_article env (fallback_transcription text) frames video_filename
      custom_prompt w
    = (w, gemini_article env video_filename custom_section
            (join_lines lines)
            ("[00:00 - 00:00] " +:+ to_str env (VStr text))).
Proof.
  intros Hk Hlines Hint. unfold generate_article.
  rewrite bind_run. unfold require_api_key. rewrite Hk.
  unfold mret at 1, M_ret at 1. rewrite bind_run. unfold lift at 1.
  rewrite Hlines. rewrite bind_run.
  change (getitem (fallback_transcription text) "segments")
    with (@inr exn pyval
            (VList [VDict [("start", VFloat (Finite 0));
                           ("end", VFloat (Finite 0));
                           ("text", VStr text)]])).
  unfold lift at 1. rewrite bind_run.
  assert (Hseg : traverse (segment_line env)
                   [VDict [("start", VFloat (Finite 0));
                           ("end", VFloat (Finite 0));
                           ("text", VStr text)]]
                 = inr ["[00:00 - 00:00] " +:+ to_str env (VStr text)]).
  { unfold traverse, segment_line.
    change (getitem _ "start") with (@inr exn pyval (VFloat (Finite 0))).
    change (getitem _ "end") with (@inr exn pyval (VFloat (Finite 0))).
    change (getitem _ "text") with (@inr exn pyval (VStr text)).
    unfold format_timestamp. rewrite Hint. reflexivity. }
  unfold lift at 1. rewrite Hseg. eexists. reflexivity.
Qed.

Lemma generate_article_fallback_witness :
  exists custom_section,
    generate_article (Double.env 65 "" "art") (fallback_transcription "hello")
      [frame_at "/o/frames" 0 0] "talk" "" Double.empty_world
    = (Double.empty_world,
       gemini_article (Double.env 65 "" "art") "talk" custom_section
         "  - frame_0000_0s.jpg (タイムスタンプ: 00:00)"
         "[00:00 - 00:00] hello").
Proof.
  apply (generate_article_fallback (Double.env 65 "" "art") "hello"
           [frame_at "/o/frames" 0 0] "talk" "" Double.empty_world "key"
           ["  - frame_0000_0s.jpg (タイムスタンプ: 00:00)"]).
  - reflexivity.
  - vm_compute. reflexivity.
  - reflexivity.
Defined.

(** ** Preview: references to frames that are missing *)

Lemma sub_tokens_absent frames_dir ts w :
  (forall alt p, In (Ref alt p) ts ->
     (exists e, node_at w (full_path frames_dir ("frames/" +:+ p)) = inl e)) ->
  sub_tokens frames_dir ts w = (w, inr (source ts)).
Proof.
  induction ts as [|t ts IH]; intros Hnone; [done|].
  assert (Hts : sub_tokens frames_dir ts w = (w, inr (source ts))).
  { apply IH. intros alt p Hin. apply (Hnone alt). by right. }
  destruct t as [c|alt p].
  - by apply sub_tokens_lit.
  - apply sub_tokens_ref; [|done].
    destruct (Hnone alt p) as [e He]; [by left|].
    by rewrite replace_image_run, He.
Qed.

(** X14.  When none of the frames an article refers to is in the frames
    directory, the substitution of [generate_preview_html] gives the article
    back unchanged and leaves the world as it is. *)
Theorem embed_images_passthrough article frames_dir w :
  (forall alt p, In (Ref alt p) (scan article) ->
     (exists e, node_at w (path_join frames_dir (basename ("frames/" +:+ p))) = inl e)) ->
  embed_images article frames_dir w = (w, inr article).
Proof.
  intros Hnone. unfold embed_images.
  rewrite (sub_tokens_absent frames_dir (scan article) w Hnone).
  by rewrite source_scan.
Qed.

Lemma embed_images_passthrough_witness :
  embed_images "A ![y](frames/g.jpg)" "/d" Double.one_frame
  = (Double.one_frame, inr "A ![y](frames/g.jpg)").
Proof.
  apply embed_images_passthrough.
  intros alt p Hin. vm_compute in Hin.
  destruct Hin as [Hin|[Hin|[Hin|[]]]]; try discriminate Hin.
  injection Hin as <- <-. exists FileNotFoundError. vm_compute. reflexivity.
Defined.

(** ** Preview: the only failure *)

Lemma sub_tokens_outcome frames_dir ts w :
  (exists o, sub_tokens frames_dir ts w = (w, inr o) /\
     forall alt p, In (Ref alt p) ts ->
       node_at w (full_path frames_dir ("frames/" +:+ p)) <> inr Dir) \/
  (sub_tokens frames_dir ts w = (w, inl IsADirectoryError) /\
     exists alt p, In (Ref alt p) ts /\
       node_at w (full_path frames_dir ("frames/" +:+ p)) = inr Dir).
Proof.
  induction ts as [|t ts IH].
  - left. exists "". split; [done|]. intros alt p [].
  - destruct t as [c|alt p].
    + destruct IH as [(o & Ho & Hdir)|(He & alt & p & Hin & Hd)].
      * left. exists (String c o). split; [by apply sub_tokens_lit|].
        intros alt p [Hin|Hin]; [discriminate Hin|by apply (Hdir alt)].
      * right. split.
        -- simpl. by rewrite bind_run, He.
        -- exists alt, p. split; [by right|done].
    + destruct (node_at w (full_path frames_dir ("frames/" +:+ p)))
        as [e|[data|]] eqn:Hp.
      * destruct IH as [(o & Ho & Hdir)|(He & alt' & p' & Hin & Hd)].
        -- left. eexists. split.
           ++ apply sub_tokens_ref; [|exact Ho].
              rewrite replace_image_run, Hp. reflexivity.
           ++ intros alt' p' [Hin|Hin]; [|by apply (Hdir alt')].
              injection Hin as _ <-. by rewrite Hp.
        -- right. split.
           ++ simpl. rewrite bind_run, replace_image_run, Hp.
              by rewrite bind_run, He.
           ++ exists alt', p'. split; [by right|done].
      * destruct IH as [(o & Ho & Hdir)|(He & alt' & p' & Hin & Hd)].
        -- left. eexists. split.
           ++ apply sub_tokens_ref; [|exact Ho].
              rewrite replace_image_run, Hp. reflexivity.
           ++ intros alt' p' [Hin|Hin]; [|by apply (Hdir alt')].
              injection Hin as _ <-. by rewrite Hp.
        -- right. split.
           ++ simpl. rewrite bind_run, replace_image_run, Hp.
              by rewrite bind_run, He.
           ++ exists alt', p'. split; [by right|done].
      * right. split.
        -- simpl. by rewrite bind_run, replace_image_run, Hp.
        -- exists alt, p. split; [by left|done].
Qed.

(** X15.  [generate_preview_html] never changes the world, and it raises
    exactly when some reference of the article resolves to a directory: the
    error is then the one of [open]; in every other case a page is
    returned. *)
Theorem generate_preview_html_outcome page_head page_tail env article
    frames_dir w :
  let run := generate_preview_html page_head page_tail env article
               frames_dir w in
  let leads_to_directory :=
    exists alt p, In (Ref alt p) (scan article) /\
      node_at w (path_join frames_dir (basename ("frames/" +:+ p))) = inr Dir in
  fst run = w /\
  (leads_to_directory -> snd run = inl IsADirectoryError) /\
  (~ leads_to_directory -> exists html, snd run = inr html).
Proof.
  intros run leads_to_directory.
  destruct (sub_tokens_outcome frames_dir (scan article) w)
    as [(o & Ho & Hdir)|(He & Hd)].
  - assert (Hrun : run = (w, inr (page_head +:+ md_markdown env o
                                    +:+ page_tail))).
    { subst run. by apply preview_run. }
    rewrite Hrun. split; [done|]. split.
    + intros (alt & p & Hin & Hp). by destruct (Hdir alt p Hin).
    + intros _. by eexists.
  - assert (Hrun : run = (w, inl IsADirectoryError)).
    { subst run. unfold generate_preview_html, embed_images.
      by rewrite bind_run, He. }
    rewrite Hrun. split; [done|]. split; [done|].
    intros Hn. by destruct Hn.
Qed.

(** ** The recursion of [os.makedirs] *)

Lemma rstrip_sep_length s : (String.length (rstrip_sep s) <= String.length s)%nat.
Proof.
  induction s as [|c s IH]; [done|]. cbn [rstrip_sep].
  destruct (rstrip_sep s); [destruct (Ascii.eqb c "/")|]; simpl in *; lia.
Qed.

Lemma cut_last_sep_length p :
  (String.length (fst (cut_last_sep p)) + String.length (snd (cut_last_sep p))
   = String.length p)%nat.
Proof.
  induction p as [|c p IH]; [done|]. cbn [cut_last_sep].
  destruct (cut_last_sep p) as [h t]. cbn [fst snd] in *.
  destruct h as [|a h]; cbn [String.eqb negb].
  - destruct (Ascii.eqb c "/"); simpl in *; lia.
  - simpl in *. lia.
Qed.

(** The head and the tail of a path are not longer than the path. *)
Lemma split_length p :
  (String.length (fst (split p)) + String.length (snd (split p))
   <= String.length p)%nat.
Proof.
  unfold split. pose proof (cut_last_sep_length p) as H.
  destruct (cut_last_sep p) as [h t]. cbn [fst snd] in *.
  pose proof (rstrip_sep_length h). destruct (String.eqb _ ""); lia.
Qed.

(** [os.makedirs] returns: the fuel given to the recursion is enough, and
    more of it changes nothing. *)
Lemma makedirs_fuel k1 : forall k2 f cwd name,
  (String.length name <= k1)%nat -> (String.length name <= k2)%nat ->
  Disk.makedirs k1 f cwd name = Disk.makedirs k2 f cwd name.
Proof.
  induction k1 as [|k1 IH]; intros k2 f cwd name H1 H2.
  - destruct name; [|simpl in H1; lia]. by destruct k2.
  - destruct k2 as [|k2].
    { destruct name; [done|simpl in H2; lia]. }
    cbn [Disk.makedirs].
    pose proof (split_length name) as Hs.
    destruct (split name) as [head0 tail0]. cbn [fst snd] in Hs.
    pose proof (split_length head0) as Hs0.
    destruct (split head0) as [head1 tail1]. cbn [fst snd] in Hs0.
    destruct (String.eqb_spec tail0 "") as [->|Ht0].
    + destruct (negb (String.eqb head1 "") && negb (String.eqb tail1 "")
                && negb (Disk.exists_ f cwd head1)) eqn:E; [|done].
      apply andb_true_iff in E as [E _]. apply andb_true_iff in E as [_ E].
      destruct tail1; [done|]. simpl in *.
      by rewrite (IH k2) by lia.
    + destruct (negb (String.eqb head0 "") && negb (String.eqb tail0 "")
                && negb (Disk.exists_ f cwd head0)) eqn:E; [|done].
      destruct tail0; [done|]. simpl in *.
      by rewrite (IH k2) by lia.
Qed.

(** ** Page renderer: the parts of an article *)

Lemma split_tokens_concat ts : forall cur,
  String.concat "" (split_tokens cur ts) = cur +:+ source ts.
Proof.
  induction ts as [|[c|alt p] ts IH]; intros cur.
  - simpl. by rewrite string_app_empty_r.
  - cbn [split_tokens source token_text]. rewrite IH.
    by rewrite string_app_assoc.
  - cbn [split_tokens source token_text]. by rewrite !concat_cons, IH.
Qed.

(** X16.  The parts [re.split] cuts an article into spell the article:
    joined as they are, they give it back. *)
Theorem re_split_concat article :
  String.concat "" (re_split article) = article.
Proof.
  unfold re_split. rewrite split_tokens_concat. apply source_scan.
Qed.

(** X17.  [display_article] joins the frames directory with everything
    that follows [frames/] in a placeholder.  When that text starts with a
    slash, the join is the text itself: the file shown is the one at that
    absolute path, wherever the frames directory is. *)
Theorem display_article_absolute_reference alt q frames_dir w data :
  ~ occurs "]" alt ->
  ~ occurs ")" q ->
  node_at w ("/" +:+ q) = inr (File data) ->
  display_article ("![" +:+ alt +:+ "](frames//" +:+ q +:+ ")") frames_dir w
  = (mkWorld (fs w) (cmds w) (ui w ++ [Image ("/" +:+ q) alt]) (cwd w),
     inr tt).
Proof.
  intros Halt Hq Hfile.
  set (p := "/" +:+ q).
  assert (Harticle : "![" +:+ alt +:+ "](frames//" +:+ q +:+ ")"
                     = group0 alt p).
  { reflexivity. }
  rewrite Harticle.
  assert (Hm : match_image (group0 alt p) = Some (alt, p, "")).
  { apply match_image_spec. split; [by rewrite string_app_empty_r|].
    split; [done|]. split; [|done].
    unfold p. change ("/" +:+ q) with (String "/" q). simpl.
    intros [H|H]; [discriminate H|done]. }
  unfold display_article, re_split. rewrite (scan_match _ _ _ _ Hm).
  change (scan "") with (@nil token). cbn [split_tokens display_parts].
  change (match_image "") with (@None (string * string * string)).
  change (strip "") with "". cbn [String.eqb negb].
  rewrite Hm. rewrite !bind_run. cbn [mret M_ret].
  assert (Hjoin : path_join frames_dir p = p).
  { unfold path_join. replace (startswith p "/") with true; [done|].
    symmetry. apply startswith_spec. by exists q. }
  rewrite Hjoin, !bind_run, path_exists_run. fold p in Hfile.
  rewrite Hfile. cbn [show fs cmds ui cwd]. reflexivity.
Qed.

Lemma display_article_absolute_reference_witness :
  display_article "![x](frames//d/f.jpg)" "/elsewhere" Double.one_frame
  = (mkWorld (fs Double.one_frame) [] [Image "/d/f.jpg" "x"] [], inr tt).
Proof.
  apply (display_article_absolute_reference "x" "d/f.jpg" "/elsewhere"
           Double.one_frame (list_byte_of_string "Man")).
  - absent.
  - absent.
  - vm_compute. reflexivity.
Defined.

(** ** The conversion handler: what the page shows of an error *)

(** X18.  An error raised inside the [try] statement does not leave the
    handler: the progress bar is cleared, the error is shown twice (as a
    message and with its traceback) after what the page showed before, and
    the handler returns. *)
Theorem convert_reports_error page_head page_tail env req w
    w1 tmp_dir tmp_video output_dir w2 e :
  prepare env req w = (w1, inr (tmp_dir, tmp_video, output_dir)) ->
  pipeline page_head page_tail env req tmp_video output_dir w1 = (w2, inl e) ->
  let run := convert page_head page_tail env req w in
  snd run = inr tt /\
  ui (fst run) = ui w2 ++ [ProgressEmpty; ErrorBox e; ExceptionBox e] /\
  cmds (fst run) = cmds w2.
Proof.
  intros Hprep Hpipe run.
  assert (Hrun : run =
    (mkWorld (Disk.rmtree (fs w2) (cwd w2) tmp_dir) (cmds w2)
       (ui w2 ++ [ProgressEmpty; ErrorBox e; ExceptionBox e]) (cwd w2),
     inr tt)).
  { subst run. unfold convert. rewrite bind_run, Hprep.
    unfold guarded, try_finally, try_except. rewrite Hpipe.
    unfold report. repeat (rewrite bind_run; cbn [show fs cmds ui cwd]).
    cbn [rmtree fst snd ui cmds fs cwd]. by rewrite <- !List.app_assoc. }
  by rewrite Hrun.
Qed.

Lemma convert_reports_error_witness :
  let run := convert "<html>" "</html>" Double.offline Double.request
               Double.tmp_world in
  snd run = inr tt /\
  List.skipn 2 (ui (fst run))
  = [Progress 25; Progress 45; ProgressEmpty; ErrorBox ServiceError;
     ExceptionBox ServiceError].
Proof.
  intros run.
  destruct (convert_reports_error "<html>" "</html>" Double.offline
              Double.request Double.tmp_world
              (fst (prepare Double.offline Double.request Double.tmp_world))
              "/tmp/tmpq" "/tmp/tmpq/talk.mp4" "/tmp/tmpq/output"
              (fst (pipeline "<html>" "</html>" Double.offline Double.request
                      "/tmp/tmpq/talk.mp4" "/tmp/tmpq/output"
                      (fst (prepare Double.offline Double.request
                              Double.tmp_world))))
              ServiceError) as (Hr & Hui & _);
    [vm_compute; reflexivity..|].
  split; [exact Hr|]. subst run. rewrite Hui. vm_compute. reflexivity.
Defined.

(** ** Article composer: the custom prompt *)

Lemma strip_spaces ws : forallb is_space ws = true -> strip (String.concat "" ws) = "".
Proof.
  intros H. unfold strip. by rewrite rstrip_blank by by apply blank_spaces.
Qed.

(** X19.  A custom prompt that consists of white space only -- spaces,
    line feeds, the ideographic space -- counts as none: the request sent
    to the generation service is the one sent for the empty prompt. *)
Theorem generate_article_blank_prompt env transcription frames video_filename
    ws w :
  forallb is_space ws = true ->
  generate_article env transcription frames video_filename
    (String.concat "" ws) w
  = generate_article env transcription frames video_filename "" w.
Proof.
  intros H. unfold generate_article. by rewrite (strip_spaces ws H).
Qed.

Lemma generate_article_blank_prompt_witness :
  generate_article (Double.env 65 "" "art") (fallback_transcription "hello")
    [] "talk" (" " +:+ String lf (utf8 0x3000)) Double.empty_world
  = generate_article (Double.env 65 "" "art") (fallback_transcription "hello")
    [] "talk" "" Double.empty_world.
Proof.
  apply (generate_article_blank_prompt (Double.env 65 "" "art")
           (fallback_transcription "hello") [] "talk"
           [" "; String lf ""; utf8 0x3000] Double.empty_world).
  reflexivity.
Defined.

(** ** Start-up checks *)




